(** * The USP text-to-speech engine adapter

    A shallow embedding of
    [source/core/tts_usp/usp_tts_engine_adapter.cpp]
    (class [CSpxUspTtsEngineAdapter]) and the properties of its session
    state machine, response assembler, word-boundary aligner, connection
    life cycle and error translator.

    Conventions of the embedding.
    - The release build is modelled: [SPX_DBG_ASSERT] and the
      [SPX_DBG_TRACE_*] macros compile to nothing.
    - [size_t] positions inside strings are [nat]; the 32-bit member
      [m_currentTextOffset] is an [N] with its wrap-around written out.
    - [std::wstring] is a list of code units, [std::string] is [string],
      the received audio is a [list byte].
    - [std::string::npos] is [None].
    - Calls that leave the adapter (connect, send, site notifications) are
      recorded, in order, in the [trace] field of the adapter state.
    - The callbacks run one at a time, in the order in which the connection
      delivers the events, while [Speak] waits; the mutex is not modelled.
    - A loop runs for at most [fuel] iterations; a call that does not
      return (a loop that is still running, a wait that is never released)
      has the outcome [Hangs]. *)

From Stdlib Require Import Strings.Byte Strings.Ascii Strings.String NArith ZArith Lia.
From stdpp Require Import base numbers list strings pretty gmap.

Local Open Scope N_scope.

(** ** Wide strings *)

Definition wchar_t := N.
Abbreviation wstring := (list wchar_t).

(** A wide string literal [L"..."]. *)
Definition L (s : string) : wstring := N_of_ascii <$> list_ascii_of_string s.

(** The characters ['<'] and ['>'] compared against in [InSsmlTag]. *)
Definition chr_lt : wchar_t := 60.
Definition chr_gt : wchar_t := 62.

(** [w.data()] read as a [const wchar_t*]: the code units before the first
    NUL. *)
Fixpoint c_str (w : wstring) : wstring :=
  match w with
  | [] => []
  | c :: w' => if c =? 0 then [] else c :: c_str w'
  end.

(** [s.data()] of a [std::string] read as a [const char*]: the characters
    before the first NUL. *)
Fixpoint string_data (s : string) : string :=
  match s with
  | EmptyString => EmptyString
  | String c s' => if Ascii.eqb c "000"%char then EmptyString else String c (string_data s')
  end.

(** [traits::compare] of [s] against the front of [hay]. *)
Fixpoint starts_with (s hay : wstring) : bool :=
  match s, hay with
  | [], _ => true
  | _ :: _, [] => false
  | c :: s', h :: hay' => (c =? h) && starts_with s' hay'
  end.

(** The search of [find]: [hay] is the text from position [xpos] on. *)
Fixpoint find_in (s hay : wstring) (xpos : nat) : option nat :=
  if starts_with s hay then Some xpos
  else match hay with
       | [] => None
       | _ :: hay' => find_in s hay' (S xpos)
       end.

(** [str.find(s, pos)] for a NUL-terminated [s]: the lowest position
    [xpos >= pos] at which [s] occurs in [str], or [npos]. *)
Definition find (str s : wstring) (pos : nat) : option nat :=
  if (pos <=? length str)%nat then find_in s (drop pos str) pos else None.

(** ** [InSsmlTag] *)

(** The loop [while (pos > beginningPos) { ...; pos--; }]. *)
Fixpoint InSsmlTag_scan (ssml : wstring) (beginningPos pos : nat) : bool :=
  match pos with
  | O => false
  | S pos' =>
      if (beginningPos <? pos)%nat then
        let c := default 0 (ssml !! pos) in
        if c =? chr_gt then false
        else if c =? chr_lt then true
        else InSsmlTag_scan ssml beginningPos pos'
      else false
  end.

Definition InSsmlTag (currentPos : nat) (ssml : wstring) (beginningPos : nat) : bool :=
  if (currentPos <? beginningPos)%nat || (length ssml <=? currentPos)%nat
     || (length ssml <=? beginningPos)%nat
  then false
  else InSsmlTag_scan ssml beginningPos currentPos.

(** ** Error codes *)

Module USP.

(** Modelled from the spec: the enumeration [USP::ErrorCode] is declared
    in the USP library, not in this file. The spec lists eight transport
    and service codes, which are the enumerators the adapter names;
    [Unnamed v] is any other value of the underlying integer type, such
    as the [static_cast<USP::ErrorCode>(0)] that [Speak] stores. *)
Inductive ErrorCode :=
| AuthenticationError
| BadRequest
| ConnectionError
| Forbidden
| RuntimeError
| ServiceError
| ServiceUnavailable
| TooManyRequests
| Unnamed (v : Z).

#[global] Instance ErrorCode_eq_dec : EqDecision ErrorCode.
Proof. solve_decision. Defined.

Definition ErrorCode_encode (c : ErrorCode) : nat + Z :=
  match c with
  | AuthenticationError => inl 0%nat
  | BadRequest => inl 1%nat
  | ConnectionError => inl 2%nat
  | Forbidden => inl 3%nat
  | RuntimeError => inl 4%nat
  | ServiceError => inl 5%nat
  | ServiceUnavailable => inl 6%nat
  | TooManyRequests => inl 7%nat
  | Unnamed v => inr v
  end.

Definition ErrorCode_decode (x : nat + Z) : option ErrorCode :=
  match x with
  | inl 0%nat => Some AuthenticationError
  | inl 1%nat => Some BadRequest
  | inl 2%nat => Some ConnectionError
  | inl 3%nat => Some Forbidden
  | inl 4%nat => Some RuntimeError
  | inl 5%nat => Some ServiceError
  | inl 6%nat => Some ServiceUnavailable
  | inl 7%nat => Some TooManyRequests
  | inl _ => None
  | inr v => Some (Unnamed v)
  end.

#[global] Instance ErrorCode_countable : Countable ErrorCode.
Proof.
  apply (inj_countable ErrorCode_encode ErrorCode_decode).
  intros []; reflexivity.
Defined.

(** Modelled from the spec: [USP::MessageType], one value for each of the
    three outbound messages. *)
Inductive MessageType := MessageType_Config | MessageType_Context | MessageType_Ssml.

End USP.

Module CancellationErrorCode.

(** Modelled from the spec: the public enumeration
    [CancellationErrorCode] is declared in the SDK headers. These are the
    values of the caller-facing taxonomy: the "no error" sentinel and the
    eight codes of the table. *)
Inductive t :=
| NoError
| AuthenticationFailure
| BadRequest
| TooManyRequests
| Forbidden
| ConnectionFailure
| ServiceUnavailable
| ServiceError
| RuntimeError.

#[global] Instance t_eq_dec : EqDecision t.
Proof. solve_decision. Defined.

End CancellationErrorCode.

(** The [std::map] built in [UspErrorCodeToCancellationErrorCode]; the
    initializer list is inserted left to right and an insertion never
    replaces an entry, which is what [list_to_map] does. *)
Definition uspErrorCodeToCancellationErrorCodeMapping
  : gmap USP.ErrorCode CancellationErrorCode.t :=
  list_to_map
    [ (USP.AuthenticationError, CancellationErrorCode.AuthenticationFailure);
      (USP.BadRequest, CancellationErrorCode.BadRequest);
      (USP.ConnectionError, CancellationErrorCode.ConnectionFailure);
      (USP.Forbidden, CancellationErrorCode.Forbidden);
      (USP.RuntimeError, CancellationErrorCode.RuntimeError);
      (USP.ServiceError, CancellationErrorCode.ServiceError);
      (USP.ServiceUnavailable, CancellationErrorCode.ServiceUnavailable);
      (USP.TooManyRequests, CancellationErrorCode.TooManyRequests) ].

Definition UspErrorCodeToCancellationErrorCode (uspErrorCode : USP.ErrorCode)
  : CancellationErrorCode.t :=
  let cancellationErrorCode := CancellationErrorCode.NoError in
  match uspErrorCodeToCancellationErrorCodeMapping !! uspErrorCode with
  | Some second => second
  | None => cancellationErrorCode
  end.

(** ** Messages and collaborators *)

Module UspState.
(** Modelled from the spec: the enumeration [UspState] is declared in the
    adapter's header; the session state is one of these four. *)
Inductive t := Idle | Sending | Receiving | Error.

#[global] Instance t_eq_dec : EqDecision t.
Proof. solve_decision. Defined.
End UspState.

Module PropertyId.
(** The values of the public [PropertyId] that [Speak] and [UspInitialize]
    name; their strings are given by [GetPropertyName]. *)
Inductive t :=
| SpeechServiceConnection_SynthLanguage
| SpeechServiceConnection_SynthVoice
| SpeechServiceAuthorization_Token
| SpeechServiceConnection_Url
| CancellationDetails_ReasonDetailedText.
End PropertyId.

(** Modelled from the spec: a word-boundary entry (audio-time offset and
    reported word text) and one typed entry of the metadata message, as
    the USP library declares them. *)
Record TextBoundary := { audioOffset : N; text : wstring }.
Record Metadata := { type : string; textBoundary : TextBoundary }.

(** Modelled from the spec: the inbound events, one constructor for each
    callback of [ISpxUspCallbacks] the adapter implements, with the parts
    of the USP messages the callbacks read. *)
Inductive Event :=
| TurnStartMsg
| AudioOutputChunkMsg (audioBuffer : list byte)
| AudioOutputMetadataMsg (metadatas : list Metadata)
| TurnEndMsg
| ErrorMsg (transport : bool) (errorCode : USP.ErrorCode) (errorMessage : string).

(** Modelled from the spec: the collaborators, as far as the adapter reads
    them: the connection, the callback registration, the authenticator
    (its current access token, possibly empty) and the audio output (format
    descriptor, header flag, format string, raw format string). *)
Record Connection := { GetConnectionUrl : string }.
Inductive Callbacks := CSpxUspCallbackWrapper.
Record Authenticator := { GetAccessToken : string }.
Record AudioOutput := {
  GetFormat : list byte;
  HasHeader : bool;
  GetFormatString : string;
  GetRawFormatString : string }.

(** What [client.Connect()] does when it is called. *)
Inductive ConnectOutcome :=
| Connected (c : Connection)
| ConnectedNull
| ThrowsException (what : string)
| ThrowsOther.

(** What the adapter reads from outside during one [Speak]. *)
Record Env := {
  IsConnected : bool;        (* m_uspConnection->IsConnected() *)
  now_check : Z;             (* system_clock::now() in EnsureUspConnection *)
  Connect : ConnectOutcome;  (* client.Connect() in UspInitialize *)
  now_connect : Z }.         (* system_clock::now() in UspInitialize *)

(** The calls that leave the adapter. *)
Inductive Effect :=
| SpxTermAndClear_uspCallbacks
| Connection_reset
| Client_Connect (authorizationToken endpointUrl : string)
    (proxy : option (string * Z * string * string))
| Connection_SendMessage (messagePath buffer : string) (messageType : USP.MessageType)
| Site_Write (requestId : wstring) (buffer : list byte) (size : N)
| FireWordBoundary (audioOffset textOffset wordLength : N)
| cv_notify_all.

Inductive ResultReason := Canceled | SynthesizingAudioCompleted.
Inductive CancellationReason := CancellationReason_Error | REASON_CANCELED_NONE.

(** Modelled from the spec: the result object, holding the arguments of
    [InitSynthesisResult] and the detail text set on the result afterwards.
    [audio] is the [audio_length] bytes copied from [audio_buffer]. *)
Record SynthesisResult := {
  resultId : wstring;
  reason : ResultReason;
  cancellationReason : CancellationReason;
  errorCode : CancellationErrorCode.t;
  audio : list byte;
  format : list byte;
  hasHeader : bool;
  ReasonDetailedText : option string }.

(** Functions and constants of the SDK that this file calls and that are
    defined elsewhere; the adapter is parametric in them. *)
Class Externals := {
  itos : Z → string;                          (* CSpxSynthesisHelper::itos *)
  UspState_int : UspState.t → Z;              (* (int)(UspState)m_uspState *)
  ToWString : string → wstring;               (* PAL::ToWString *)
  BuildSsml : string → string → string → string;  (* CSpxSynthesisHelper::BuildSsml *)
  GetPropertyName : PropertyId.t → string;
  GetTicks : Z → N;                           (* PAL::GetTicks *)
  is_word_boundary : string → bool;
    (* PAL::stricmp(type, METADATA_TYPE_WORD_BOUNDARY) == 0 *)
  speechConfig_dump : string;                 (* the JSON of SetSpeechConfigMessage *)
  synthesisContext_dump : string → string → string → string
    (* the JSON of UspSendSynthesisContext *) }.

(** ** The adapter state *)

Record Adapter := {
  m_uspState : UspState.t;
  m_uspConnection : option Connection;
  m_uspCallbacks : option Callbacks;
  m_lastConnectTime : Z;
  m_authenticator : option Authenticator;
  m_endpoint : string;
  m_proxyHost : string;
  m_proxyPort : Z;
  m_proxyUsername : string;
  m_proxyPassword : string;
  m_audioOutput : AudioOutput;
  m_speechConfig : string;
  properties : gmap string string;   (* ISpxPropertyBagImpl *)
  m_currentRequestId : wstring;
  m_currentText : wstring;
  m_currentTextIsSsml : bool;
  m_currentTextOffset : N;           (* uint32_t *)
  m_currentErrorCode : USP.ErrorCode;
  m_currentErrorMessage : string;
  m_currentReceivedData : list byte;
  trace : list Effect }.

(** Assignment to one member. *)
Definition set_m_uspState (v : _) (s : Adapter) : Adapter :=
  {| m_uspState := v;
     m_uspConnection := m_uspConnection s;
     m_uspCallbacks := m_uspCallbacks s;
     m_lastConnectTime := m_lastConnectTime s;
     m_authenticator := m_authenticator s;
     m_endpoint := m_endpoint s;
     m_proxyHost := m_proxyHost s;
     m_proxyPort := m_proxyPort s;
     m_proxyUsername := m_proxyUsername s;
     m_proxyPassword := m_proxyPassword s;
     m_audioOutput := m_audioOutput s;
     m_speechConfig := m_speechConfig s;
     properties := properties s;
     m_currentRequestId := m_currentRequestId s;
     m_currentText := m_currentText s;
     m_currentTextIsSsml := m_currentTextIsSsml s;
     m_currentTextOffset := m_currentTextOffset s;
     m_currentErrorCode := m_currentErrorCode s;
     m_currentErrorMessage := m_currentErrorMessage s;
     m_currentReceivedData := m_currentReceivedData s;
     trace := trace s |}.

Definition set_m_uspConnection (v : _) (s : Adapter) : Adapter :=
  {| m_uspState := m_uspState s;
     m_uspConnection := v;
     m_uspCallbacks := m_uspCallbacks s;
     m_lastConnectTime := m_lastConnectTime s;
     m_authenticator := m_authenticator s;
     m_endpoint := m_endpoint s;
     m_proxyHost := m_proxyHost s;
     m_proxyPort := m_proxyPort s;
     m_proxyUsername := m_proxyUsername s;
     m_proxyPassword := m_proxyPassword s;
     m_audioOutput := m_audioOutput s;
     m_speechConfig := m_speechConfig s;
     properties := properties s;
     m_currentRequestId := m_currentRequestId s;
     m_currentText := m_currentText s;
     m_currentTextIsSsml := m_currentTextIsSsml s;
     m_currentTextOffset := m_currentTextOffset s;
     m_currentErrorCode := m_currentErrorCode s;
     m_currentErrorMessage := m_currentErrorMessage s;
     m_currentReceivedData := m_currentReceivedData s;
     trace := trace s |}.

Definition set_m_uspCallbacks (v : _) (s : Adapter) : Adapter :=
  {| m_uspState := m_uspState s;
     m_uspConnection := m_uspConnection s;
     m_uspCallbacks := v;
     m_lastConnectTime := m_lastConnectTime s;
     m_authenticator := m_authenticator s;
     m_endpoint := m_endpoint s;
     m_proxyHost := m_proxyHost s;
     m_proxyPort := m_proxyPort s;
     m_proxyUsername := m_proxyUsername s;
     m_proxyPassword := m_proxyPassword s;
     m_audioOutput := m_audioOutput s;
     m_speechConfig := m_speechConfig s;
     properties := properties s;
     m_currentRequestId := m_currentRequestId s;
     m_currentText := m_currentText s;
     m_currentTextIsSsml := m_currentTextIsSsml s;
     m_currentTextOffset := m_currentTextOffset s;
     m_currentErrorCode := m_currentErrorCode s;
     m_currentErrorMessage := m_currentErrorMessage s;
     m_currentReceivedData := m_currentReceivedData s;
     trace := trace s |}.

Definition set_m_lastConnectTime (v : _) (s : Adapter) : Adapter :=
  {| m_uspState := m_uspState s;
     m_uspConnection := m_uspConnection s;
     m_uspCallbacks := m_uspCallbacks s;
     m_lastConnectTime := v;
     m_authenticator := m_authenticator s;
     m_endpoint := m_endpoint s;
     m_proxyHost := m_proxyHost s;
     m_proxyPort := m_proxyPort s;
     m_proxyUsername := m_proxyUsername s;
     m_proxyPassword := m_proxyPassword s;
     m_audioOutput := m_audioOutput s;
     m_speechConfig := m_speechConfig s;
     properties := properties s;
     m_currentRequestId := m_currentRequestId s;
     m_currentText := m_currentText s;
     m_currentTextIsSsml := m_currentTextIsSsml s;
     m_currentTextOffset := m_currentTextOffset s;
     m_currentErrorCode := m_currentErrorCode s;
     m_currentErrorMessage := m_currentErrorMessage s;
     m_currentReceivedData := m_currentReceivedData s;
     trace := trace s |}.

Definition set_m_speechConfig (v : _) (s : Adapter) : Adapter :=
  {| m_uspState := m_uspState s;
     m_uspConnection := m_uspConnection s;
     m_uspCallbacks := m_uspCallbacks s;
     m_lastConnectTime := m_lastConnectTime s;
     m_authenticator := m_authenticator s;
     m_endpoint := m_endpoint s;
     m_proxyHost := m_proxyHost s;
     m_proxyPort := m_proxyPort s;
     m_proxyUsername := m_proxyUsername s;
     m_proxyPassword := m_proxyPassword s;
     m_audioOutput := m_audioOutput s;
     m_speechConfig := v;
     properties := properties s;
     m_currentRequestId := m_currentRequestId s;
     m_currentText := m_currentText s;
     m_currentTextIsSsml := m_currentTextIsSsml s;
     m_currentTextOffset := m_currentTextOffset s;
     m_currentErrorCode := m_currentErrorCode s;
     m_currentErrorMessage := m_currentErrorMessage s;
     m_currentReceivedData := m_currentReceivedData s;
     trace := trace s |}.

Definition set_properties (v : _) (s : Adapter) : Adapter :=
  {| m_uspState := m_uspState s;
     m_uspConnection := m_uspConnection s;
     m_uspCallbacks := m_uspCallbacks s;
     m_lastConnectTime := m_lastConnectTime s;
     m_authenticator := m_authenticator s;
     m_endpoint := m_endpoint s;
     m_proxyHost := m_proxyHost s;
     m_proxyPort := m_proxyPort s;
     m_proxyUsername := m_proxyUsername s;
     m_proxyPassword := m_proxyPassword s;
     m_audioOutput := m_audioOutput s;
     m_speechConfig := m_speechConfig s;
     properties := v;
     m_currentRequestId := m_currentRequestId s;
     m_currentText := m_currentText s;
     m_currentTextIsSsml := m_currentTextIsSsml s;
     m_currentTextOffset := m_currentTextOffset s;
     m_currentErrorCode := m_currentErrorCode s;
     m_currentErrorMessage := m_currentErrorMessage s;
     m_currentReceivedData := m_currentReceivedData s;
     trace := trace s |}.

Definition set_m_currentRequestId (v : _) (s : Adapter) : Adapter :=
  {| m_uspState := m_uspState s;
     m_uspConnection := m_uspConnection s;
     m_uspCallbacks := m_uspCallbacks s;
     m_lastConnectTime := m_lastConnectTime s;
     m_authenticator := m_authenticator s;
     m_endpoint := m_endpoint s;
     m_proxyHost := m_proxyHost s;
     m_proxyPort := m_proxyPort s;
     m_proxyUsername := m_proxyUsername s;
     m_proxyPassword := m_proxyPassword s;
     m_audioOutput := m_audioOutput s;
     m_speechConfig := m_speechConfig s;
     properties := properties s;
     m_currentRequestId := v;
     m_currentText := m_currentText s;
     m_currentTextIsSsml := m_currentTextIsSsml s;
     m_currentTextOffset := m_currentTextOffset s;
     m_currentErrorCode := m_currentErrorCode s;
     m_currentErrorMessage := m_currentErrorMessage s;
     m_currentReceivedData := m_currentReceivedData s;
     trace := trace s |}.

Definition set_m_currentText (v : _) (s : Adapter) : Adapter :=
  {| m_uspState := m_uspState s;
     m_uspConnection := m_uspConnection s;
     m_uspCallbacks := m_uspCallbacks s;
     m_lastConnectTime := m_lastConnectTime s;
     m_authenticator := m_authenticator s;
     m_endpoint := m_endpoint s;
     m_proxyHost := m_proxyHost s;
     m_proxyPort := m_proxyPort s;
     m_proxyUsername := m_proxyUsername s;
     m_proxyPassword := m_proxyPassword s;
     m_audioOutput := m_audioOutput s;
     m_speechConfig := m_speechConfig s;
     properties := properties s;
     m_currentRequestId := m_currentRequestId s;
     m_currentText := v;
     m_currentTextIsSsml := m_currentTextIsSsml s;
     m_currentTextOffset := m_currentTextOffset s;
     m_currentErrorCode := m_currentErrorCode s;
     m_currentErrorMessage := m_currentErrorMessage s;
     m_currentReceivedData := m_currentReceivedData s;
     trace := trace s |}.

Definition set_m_currentTextIsSsml (v : _) (s : Adapter) : Adapter :=
  {| m_uspState := m_uspState s;
     m_uspConnection := m_uspConnection s;
     m_uspCallbacks := m_uspCallbacks s;
     m_lastConnectTime := m_lastConnectTime s;
     m_authenticator := m_authenticator s;
     m_endpoint := m_endpoint s;
     m_proxyHost := m_proxyHost s;
     m_proxyPort := m_proxyPort s;
     m_proxyUsername := m_proxyUsername s;
     m_proxyPassword := m_proxyPassword s;
     m_audioOutput := m_audioOutput s;
     m_speechConfig := m_speechConfig s;
     properties := properties s;
     m_currentRequestId := m_currentRequestId s;
     m_currentText := m_currentText s;
     m_currentTextIsSsml := v;
     m_currentTextOffset := m_currentTextOffset s;
     m_currentErrorCode := m_currentErrorCode s;
     m_currentErrorMessage := m_currentErrorMessage s;
     m_currentReceivedData := m_currentReceivedData s;
     trace := trace s |}.

Definition set_m_currentTextOffset (v : _) (s : Adapter) : Adapter :=
  {| m_uspState := m_uspState s;
     m_uspConnection := m_uspConnection s;
     m_uspCallbacks := m_uspCallbacks s;
     m_lastConnectTime := m_lastConnectTime s;
     m_authenticator := m_authenticator s;
     m_endpoint := m_endpoint s;
     m_proxyHost := m_proxyHost s;
     m_proxyPort := m_proxyPort s;
     m_proxyUsername := m_proxyUsername s;
     m_proxyPassword := m_proxyPassword s;
     m_audioOutput := m_audioOutput s;
     m_speechConfig := m_speechConfig s;
     properties := properties s;
     m_currentRequestId := m_currentRequestId s;
     m_currentText := m_currentText s;
     m_currentTextIsSsml := m_currentTextIsSsml s;
     m_currentTextOffset := v;
     m_currentErrorCode := m_currentErrorCode s;
     m_currentErrorMessage := m_currentErrorMessage s;
     m_currentReceivedData := m_currentReceivedData s;
     trace := trace s |}.

Definition set_m_currentErrorCode (v : _) (s : Adapter) : Adapter :=
  {| m_uspState := m_uspState s;
     m_uspConnection := m_uspConnection s;
     m_uspCallbacks := m_uspCallbacks s;
     m_lastConnectTime := m_lastConnectTime s;
     m_authenticator := m_authenticator s;
     m_endpoint := m_endpoint s;
     m_proxyHost := m_proxyHost s;
     m_proxyPort := m_proxyPort s;
     m_proxyUsername := m_proxyUsername s;
     m_proxyPassword := m_proxyPassword s;
     m_audioOutput := m_audioOutput s;
     m_speechConfig := m_speechConfig s;
     properties := properties s;
     m_currentRequestId := m_currentRequestId s;
     m_currentText := m_currentText s;
     m_currentTextIsSsml := m_currentTextIsSsml s;
     m_currentTextOffset := m_currentTextOffset s;
     m_currentErrorCode := v;
     m_currentErrorMessage := m_currentErrorMessage s;
     m_currentReceivedData := m_currentReceivedData s;
     trace := trace s |}.

Definition set_m_currentErrorMessage (v : _) (s : Adapter) : Adapter :=
  {| m_uspState := m_uspState s;
     m_uspConnection := m_uspConnection s;
     m_uspCallbacks := m_uspCallbacks s;
     m_lastConnectTime := m_lastConnectTime s;
     m_authenticator := m_authenticator s;
     m_endpoint := m_endpoint s;
     m_proxyHost := m_proxyHost s;
     m_proxyPort := m_proxyPort s;
     m_proxyUsername := m_proxyUsername s;
     m_proxyPassword := m_proxyPassword s;
     m_audioOutput := m_audioOutput s;
     m_speechConfig := m_speechConfig s;
     properties := properties s;
     m_currentRequestId := m_currentRequestId s;
     m_currentText := m_currentText s;
     m_currentTextIsSsml := m_currentTextIsSsml s;
     m_currentTextOffset := m_currentTextOffset s;
     m_currentErrorCode := m_currentErrorCode s;
     m_currentErrorMessage := v;
     m_currentReceivedData := m_currentReceivedData s;
     trace := trace s |}.

Definition set_m_currentReceivedData (v : _) (s : Adapter) : Adapter :=
  {| m_uspState := m_uspState s;
     m_uspConnection := m_uspConnection s;
     m_uspCallbacks := m_uspCallbacks s;
     m_lastConnectTime := m_lastConnectTime s;
     m_authenticator := m_authenticator s;
     m_endpoint := m_endpoint s;
     m_proxyHost := m_proxyHost s;
     m_proxyPort := m_proxyPort s;
     m_proxyUsername := m_proxyUsername s;
     m_proxyPassword := m_proxyPassword s;
     m_audioOutput := m_audioOutput s;
     m_speechConfig := m_speechConfig s;
     properties := properties s;
     m_currentRequestId := m_currentRequestId s;
     m_currentText := m_currentText s;
     m_currentTextIsSsml := m_currentTextIsSsml s;
     m_currentTextOffset := m_currentTextOffset s;
     m_currentErrorCode := m_currentErrorCode s;
     m_currentErrorMessage := m_currentErrorMessage s;
     m_currentReceivedData := v;
     trace := trace s |}.

Definition set_trace (v : _) (s : Adapter) : Adapter :=
  {| m_uspState := m_uspState s;
     m_uspConnection := m_uspConnection s;
     m_uspCallbacks := m_uspCallbacks s;
     m_lastConnectTime := m_lastConnectTime s;
     m_authenticator := m_authenticator s;
     m_endpoint := m_endpoint s;
     m_proxyHost := m_proxyHost s;
     m_proxyPort := m_proxyPort s;
     m_proxyUsername := m_proxyUsername s;
     m_proxyPassword := m_proxyPassword s;
     m_audioOutput := m_audioOutput s;
     m_speechConfig := m_speechConfig s;
     properties := properties s;
     m_currentRequestId := m_currentRequestId s;
     m_currentText := m_currentText s;
     m_currentTextIsSsml := m_currentTextIsSsml s;
     m_currentTextOffset := m_currentTextOffset s;
     m_currentErrorCode := m_currentErrorCode s;
     m_currentErrorMessage := m_currentErrorMessage s;
     m_currentReceivedData := m_currentReceivedData s;
     trace := v |}.

(** ** Control: state, exceptions, calls that do not return *)

Inductive Exception := SPXERR_ALREADY_INITIALIZED.

Inductive Res (A : Type) :=
| Ok (a : A) (s : Adapter)
| Thrown (e : Exception) (s : Adapter)
| Hangs (s : Adapter).
Arguments Ok {A} a s.
Arguments Thrown {A} e s.
Arguments Hangs {A} s.

Definition M (A : Type) : Type := Adapter → Res A.

#[global] Instance M_ret : MRet M := λ A a s, Ok a s.
#[global] Instance M_bind : MBind M := λ A B f m s,
  match m s with
  | Ok a s' => f a s'
  | Thrown e s' => Thrown e s'
  | Hangs s' => Hangs s'
  end.

Definition get : M Adapter := λ s, Ok s s.
Definition modify (f : Adapter → Adapter) : M unit := λ s, Ok tt (f s).
Definition emit (e : Effect) : M unit := modify (λ s, set_trace (trace s ++ [e]) s).
Definition throw {A} (e : Exception) : M A := λ s, Thrown e s.
Definition when (b : bool) (m : M unit) : M unit := if b then m else mret tt.

(** [while (cond) body] on a local variable, run for at most [fuel]
    iterations; [None] when the loop is still running. *)
Fixpoint while {A} (fuel : nat) (cond : A → bool) (body : A → A) (a : A) : option A :=
  if cond a then
    match fuel with
    | O => None
    | S fuel' => while fuel' cond body (body a)
    end
  else Some a.

Definition run_loop {A} (r : option A) : M A :=
  λ s, match r with Some a => Ok a s | None => Hangs s end.

Definition uint32 (n : N) : N := n mod 2 ^ 32.
Definition uint64 (n : N) : N := n mod 2 ^ 64.

(** ** The adapter *)

Section CSpxUspTtsEngineAdapter.
Context `{Externals}.

(** [ISpxPropertyBagImpl::GetStringValue] and [SetStringValue]. *)
Definition GetStringValue (name defaultValue : string) : M string :=
  s ← get; mret (default defaultValue (properties s !! name)).

Definition SetStringValue (name value : string) : M unit :=
  modify (λ s, set_properties (<[name := value]> (properties s)) s).

(** *** Sending *)

Definition UspSendMessage (messagePath buffer : string) (messageType : USP.MessageType)
  : M unit :=
  s ← get;
  match m_uspConnection s with
  | Some _ => emit (Connection_SendMessage messagePath buffer messageType)
  | None => mret tt
  end.

Definition SetSpeechConfigMessage : M unit :=
  modify (set_m_speechConfig speechConfig_dump).

Definition UspSendSpeechConfig : M unit :=
  s ← get;
  UspSendMessage "speech.config" (m_speechConfig s) USP.MessageType_Config.

Definition GetOutputFormatString (output : AudioOutput) : string :=
  if HasHeader output then GetRawFormatString output else GetFormatString output.

Definition UspSendSynthesisContext : M unit :=
  s ← get;
  wordBoundaryEnabled ←
    GetStringValue "SpeechServiceResponse_Synthesis_WordBoundaryEnabled" "true";
  sentenceBoundaryEnabled ←
    GetStringValue "SpeechServiceResponse_Synthesis_SentenceBoundaryEnabled" "false";
  UspSendMessage "synthesis.context"
    (synthesisContext_dump (GetOutputFormatString (m_audioOutput s))
       wordBoundaryEnabled sentenceBoundaryEnabled)
    USP.MessageType_Context.

Definition UspSendSsml (ssml : string) : M unit :=
  UspSendMessage "ssml" ssml USP.MessageType_Ssml.

(** *** Callbacks *)

Definition OnTurnStart : M unit :=
  modify (set_m_uspState UspState.Receiving) ;;
  modify (set_m_currentReceivedData []).

Definition OnAudioOutputChunk (audioBuffer : list byte) : M unit :=
  s ← get;
  when (0 <? length audioBuffer)%nat
    (emit (Site_Write (m_currentRequestId s) audioBuffer
             (uint32 (N.of_nat (length audioBuffer))))) ;;
  modify (λ s, set_m_currentReceivedData (m_currentReceivedData s ++ audioBuffer) s).

Definition OnTurnEnd : M unit :=
  modify (set_m_uspState UspState.Idle) ;;
  emit cv_notify_all.

Definition OnError (transport : bool) (errorCode : USP.ErrorCode) (errorMessage : string)
  : M unit :=
  modify (set_m_currentErrorCode errorCode) ;;
  modify (set_m_currentErrorMessage errorMessage) ;;
  modify (λ s, set_m_currentErrorMessage
    (m_currentErrorMessage s +:+
       ((". USP state: " +:+ itos (UspState_int (m_uspState s))) +:+ ".")) s) ;;
  modify (λ s, set_m_currentErrorMessage
    (m_currentErrorMessage s +:+
       ((" Received audio size: "
           +:+ itos (Z.of_nat (length (m_currentReceivedData s)))) +:+ "bytes.")) s) ;;
  modify (set_m_uspState UspState.Error) ;;
  emit cv_notify_all.

(** The body of the [if] on a word-boundary entry in
    [OnAudioOutputMetadata]. *)
Definition OnWordBoundary (fuel : nat) (wordBoundary : TextBoundary) : M unit :=
  s ← get;
  let textOffset :=
    find (m_currentText s) (c_str (text wordBoundary)) (N.to_nat (m_currentTextOffset s)) in
  textOffset ←
    (if m_currentTextIsSsml s then
       run_loop
         (while fuel
            (λ textOffset,
               match textOffset with
               | Some textOffset =>
                   InSsmlTag textOffset (m_currentText s) (N.to_nat (m_currentTextOffset s))
               | None => false
               end)
            (λ _,
               find (m_currentText s) (c_str (text wordBoundary))
                 (N.to_nat (m_currentTextOffset s)))
            textOffset)
     else mret textOffset);
  match textOffset with
  | Some textOffset =>
      let wordLength := uint32 (N.of_nat (length (text wordBoundary))) in
      modify (set_m_currentTextOffset
                (uint32 (uint32 (N.of_nat textOffset) + wordLength))) ;;
      emit (FireWordBoundary (audioOffset wordBoundary)
              (uint32 (N.of_nat textOffset)) wordLength)
  | None => mret tt
  end.

Fixpoint OnAudioOutputMetadata (fuel : nat) (metadatas : list Metadata) : M unit :=
  match metadatas with
  | [] => mret tt
  | iterator :: rest =>
      when (is_word_boundary (type iterator))
        (OnWordBoundary fuel (textBoundary iterator)) ;;
      OnAudioOutputMetadata fuel rest
  end.

(** *** Connection life cycle *)

Definition UspTerminate : M unit :=
  emit SpxTermAndClear_uspCallbacks ;;
  modify (set_m_uspCallbacks None) ;;
  s ← get;
  match m_uspConnection s with
  | Some _ =>
      emit Connection_reset ;;
      modify (set_m_uspConnection None)
  | None => mret tt
  end.

(** The value stored in [authData[AuthorizationToken]]. *)
Definition authData_AuthorizationToken : M string :=
  s ← get;
  match m_authenticator s with
  | Some authenticator =>
      if negb (String.eqb (GetAccessToken authenticator) "")
      then mret (GetAccessToken authenticator)
      else GetStringValue (GetPropertyName PropertyId.SpeechServiceAuthorization_Token) ""
  | None => GetStringValue (GetPropertyName PropertyId.SpeechServiceAuthorization_Token) ""
  end.

Definition UspInitialize (env : Env) : M unit :=
  s ← get;
  match m_uspConnection s with
  | Some _ => throw SPXERR_ALREADY_INITIALIZED
  | None =>
      authorizationToken ← authData_AuthorizationToken;
      let uspCallbacks := CSpxUspCallbackWrapper in
      let proxy :=
        if negb (String.eqb (m_proxyHost s) "") && (0 <? m_proxyPort s)%Z
        then Some (m_proxyHost s, m_proxyPort s, m_proxyUsername s, m_proxyPassword s)
        else None in
      emit (Client_Connect authorizationToken (m_endpoint s) proxy) ;;
      uspConnection ←
        match Connect env with
        | Connected c => mret (Some c)
        | ConnectedNull => mret None
        | ThrowsException what =>
            OnError true USP.ConnectionError what ;; mret None
        | ThrowsOther =>
            OnError true USP.ConnectionError
              "Error: Unexpected exception in UspInitialize" ;;
            mret None
        end;
      match uspConnection with
      | None => mret tt
      | Some c =>
          modify (set_m_uspCallbacks (Some uspCallbacks)) ;;
          modify (set_m_uspConnection (Some c)) ;;
          modify (set_m_uspState UspState.Idle) ;;
          modify (set_m_lastConnectTime (now_connect env)) ;;
          SetStringValue (GetPropertyName PropertyId.SpeechServiceConnection_Url)
            (GetConnectionUrl c) ;;
          SetSpeechConfigMessage ;;
          UspSendSpeechConfig
      end
  end.

(** [(uint64_t)9 * 60 * 1000 * 10000] *)
Definition reconnect_after_ticks : N :=
  uint64 (uint64 (uint64 (uint64 9 * 60) * 1000) * 10000).

Definition EnsureUspConnection (env : Env) : M unit :=
  s ← get;
  match m_uspConnection s with
  | None => UspInitialize env
  | Some _ =>
      if negb (IsConnected env) then
        UspTerminate ;; UspInitialize env
      else if reconnect_after_ticks <? GetTicks (now_check env - m_lastConnectTime s)%Z then
        UspTerminate ;; UspInitialize env
      else mret tt
  end.

(** *** Speak *)

(** [Speak] up to the point where it waits on [m_cv]. *)
Definition Speak_send (env : Env) (text : string) (isSsml : bool) (requestId : wstring)
  : M unit :=
  ssml ←
    (if negb isSsml then
       language ←
         GetStringValue (GetPropertyName PropertyId.SpeechServiceConnection_SynthLanguage) "";
       voice ←
         GetStringValue (GetPropertyName PropertyId.SpeechServiceConnection_SynthVoice) "";
       mret (BuildSsml text language voice)
     else mret text);
  EnsureUspConnection env ;;
  modify (set_m_currentRequestId requestId) ;;
  modify (set_m_currentText (ToWString text)) ;;
  modify (set_m_currentTextIsSsml isSsml) ;;
  modify (set_m_currentTextOffset 0) ;;
  modify (set_m_currentErrorCode (USP.Unnamed 0)) ;;
  modify (set_m_currentErrorMessage "") ;;
  modify (set_m_uspState UspState.Sending) ;;
  UspSendSynthesisContext ;;
  UspSendSsml ssml.

(** One event, handed to its callback. *)
Definition dispatch (fuel : nat) (ev : Event) : M unit :=
  match ev with
  | TurnStartMsg => OnTurnStart
  | AudioOutputChunkMsg audioBuffer => OnAudioOutputChunk audioBuffer
  | AudioOutputMetadataMsg metadatas => OnAudioOutputMetadata fuel metadatas
  | TurnEndMsg => OnTurnEnd
  | ErrorMsg transport errorCode errorMessage => OnError transport errorCode errorMessage
  end.

(** The predicate of [m_cv.wait]. *)
Definition wait_pred (s : Adapter) : bool :=
  bool_decide (m_uspState s = UspState.Idle) || bool_decide (m_uspState s = UspState.Error).

(** [m_cv.wait(lock, pred)] while the connection delivers [events], one
    callback at a time: the caller resumes at the first state that
    satisfies the predicate; it stays suspended when the events run out
    first, or when a callback does not return. *)
Fixpoint cv_wait (fuel : nat) (events : list Event) : M unit :=
  λ s,
    if wait_pred s then Ok tt s
    else match events with
         | [] => Hangs s
         | ev :: events' => (dispatch fuel ev ;; cv_wait fuel events') s
         end.

(** [Speak]. The callbacks are registered with the connection, so
    [events] reach the adapter only when [m_uspConnection] is set. *)
Definition Speak (fuel : nat) (env : Env) (events : list Event)
    (text : string) (isSsml : bool) (requestId : wstring) : M SynthesisResult :=
  Speak_send env text isSsml requestId ;;
  s ← get;
  cv_wait fuel (match m_uspConnection s with Some _ => events | None => [] end) ;;
  s ← get;
  let hasHeader := HasHeader (m_audioOutput s) in
  let outputFormat := GetFormat (m_audioOutput s) in
  if bool_decide (m_uspState s = UspState.Error) then
    mret {| resultId := requestId;
            reason := Canceled;
            cancellationReason := CancellationReason_Error;
            errorCode := UspErrorCodeToCancellationErrorCode (m_currentErrorCode s);
            audio := [];
            format := outputFormat;
            hasHeader := hasHeader;
            ReasonDetailedText := Some (string_data (m_currentErrorMessage s)) |}
  else
    mret {| resultId := requestId;
            reason := SynthesizingAudioCompleted;
            cancellationReason := REASON_CANCELED_NONE;
            errorCode := CancellationErrorCode.NoError;
            audio := m_currentReceivedData s;
            format := outputFormat;
            hasHeader := hasHeader;
            ReasonDetailedText := None |}.

End CSpxUspTtsEngineAdapter.

(** ** Concrete collaborators, for running the model *)

Module Demo.

#[global] Instance externals : Externals := {|
  itos := pretty;
  UspState_int := λ st,
    match st with
    | UspState.Idle => 0%Z
    | UspState.Sending => 1%Z
    | UspState.Receiving => 2%Z
    | UspState.Error => 3%Z
    end;
  ToWString := L;
  BuildSsml := λ text language voice,
    "<speak xml:lang='" +:+ language +:+ "'><voice name='" +:+ voice +:+ "'>"
      +:+ text +:+ "</voice></speak>";
  GetPropertyName := λ id,
    match id with
    | PropertyId.SpeechServiceConnection_SynthLanguage => "SynthLanguage"
    | PropertyId.SpeechServiceConnection_SynthVoice => "SynthVoice"
    | PropertyId.SpeechServiceAuthorization_Token => "AuthToken"
    | PropertyId.SpeechServiceConnection_Url => "Url"
    | PropertyId.CancellationDetails_ReasonDetailedText => "ReasonDetailedText"
    end;
  GetTicks := Z.to_N;
  is_word_boundary := String.eqb "WordBoundary";
  speechConfig_dump := "{}";
  synthesisContext_dump := λ outputFormat wordBoundaryEnabled sentenceBoundaryEnabled,
    outputFormat +:+ "," +:+ wordBoundaryEnabled +:+ "," +:+ sentenceBoundaryEnabled |}.

(** An adapter after [Init] and [SetOutput], before the first [Speak]. *)
Definition adapter : Adapter := {|
  m_uspState := UspState.Idle;
  m_uspConnection := None;
  m_uspCallbacks := None;
  m_lastConnectTime := 0%Z;
  m_authenticator := Some {| GetAccessToken := "token" |};
  m_endpoint := "wss://westus.tts.speech.microsoft.com/cognitiveservices/websocket/v1";
  m_proxyHost := "";
  m_proxyPort := 0%Z;
  m_proxyUsername := "";
  m_proxyPassword := "";
  m_audioOutput := {| GetFormat := []; HasHeader := false;
                      GetFormatString := "riff-16khz-16bit-mono-pcm";
                      GetRawFormatString := "raw-16khz-16bit-mono-pcm" |};
  m_speechConfig := "";
  properties := ∅;
  m_currentRequestId := [];
  m_currentText := [];
  m_currentTextIsSsml := false;
  m_currentTextOffset := 0;
  m_currentErrorCode := USP.Unnamed 0;
  m_currentErrorMessage := "";
  m_currentReceivedData := [];
  trace := [] |}.

Definition env : Env := {|
  IsConnected := true;
  now_check := 1000%Z;
  Connect := Connected {| GetConnectionUrl := "wss://westus" |};
  now_connect := 1001%Z |}.

(** The adapter in the middle of a request for [text]. *)
Definition receiving (text : string) (isSsml : bool) : Adapter :=
  set_m_uspState UspState.Receiving
    (set_m_currentText (L text) (set_m_currentTextIsSsml isSsml adapter)).

Definition word (w : string) : Metadata :=
  {| type := "WordBoundary"; textBoundary := {| audioOffset := 0; text := L w |} |}.

End Demo.

(** ** Closed forms

    The states the operations lead to, written as functions of the state
    they start from, and the predicates the statements below use. *)

Section Closed_forms.
Context `{Externals}.

(** The eight transport and service codes of the table. *)
Definition documented_codes : list USP.ErrorCode :=
  [ USP.AuthenticationError; USP.BadRequest; USP.ConnectionError; USP.Forbidden;
    USP.RuntimeError; USP.ServiceError; USP.ServiceUnavailable; USP.TooManyRequests ].

(** The value [OnWordBoundary] stores in [m_currentTextOffset]. *)
Definition next_offset (textOffset : nat) (word : wstring) : N :=
  uint32 (uint32 (N.of_nat textOffset) + uint32 (N.of_nat (length word))).

(** The adapter after a boundary was fired for [word] at [textOffset]. *)
Definition fired (wb : TextBoundary) (textOffset : nat) (s : Adapter) : Adapter :=
  set_trace
    (trace s ++ [FireWordBoundary (audioOffset wb) (uint32 (N.of_nat textOffset))
                   (uint32 (N.of_nat (length (text wb))))])
    (set_m_currentTextOffset (next_offset textOffset (text wb)) s).

(** The reported words are C strings: no NUL inside. *)
Definition words_are_c_strings (metadatas : list Metadata) : Prop :=
  Forall (λ m, c_str (text (textBoundary m)) = text (textBoundary m)) metadatas.

(** The detail text [OnError] builds from [errorMessage]. *)
Definition error_detail (errorMessage : string) (s : Adapter) : string :=
  (errorMessage +:+ ((". USP state: " +:+ itos (UspState_int (m_uspState s))) +:+ "."))
    +:+ ((" Received audio size: "
            +:+ itos (Z.of_nat (length (m_currentReceivedData s)))) +:+ "bytes.").

Definition after_OnError (errorCode : USP.ErrorCode) (errorMessage : string) (s : Adapter)
  : Adapter :=
  set_trace (trace s ++ [cv_notify_all])
    (set_m_uspState UspState.Error
       (set_m_currentErrorMessage (error_detail errorMessage s)
          (set_m_currentErrorCode errorCode s))).

Definition after_UspTerminate (s : Adapter) : Adapter :=
  let s1 := set_m_uspCallbacks None
              (set_trace (trace s ++ [SpxTermAndClear_uspCallbacks]) s) in
  match m_uspConnection s with
  | Some _ => set_m_uspConnection None (set_trace (trace s1 ++ [Connection_reset]) s1)
  | None => s1
  end.

(** The credential: the authenticator's token when there is an
    authenticator and its token is not empty, the configured
    authorization token otherwise. *)
Definition credential (s : Adapter) : string :=
  let configured :=
    default "" (properties s !! GetPropertyName PropertyId.SpeechServiceAuthorization_Token) in
  match m_authenticator s with
  | Some authenticator =>
      if String.eqb (GetAccessToken authenticator) "" then configured
      else GetAccessToken authenticator
  | None => configured
  end.

Definition proxy_setting (s : Adapter) : option (string * Z * string * string) :=
  if negb (String.eqb (m_proxyHost s) "") && (0 <? m_proxyPort s)%Z
  then Some (m_proxyHost s, m_proxyPort s, m_proxyUsername s, m_proxyPassword s)
  else None.

(** The adapter after [client.Connect()] was called. *)
Definition connect_attempted (s : Adapter) : Adapter :=
  set_trace (trace s ++ [Client_Connect (credential s) (m_endpoint s) (proxy_setting s)]) s.

(** The adapter after a connection [c] was obtained: the tail of
    [UspInitialize]. *)
Definition established (env : Env) (c : Connection) (s : Adapter) : Adapter :=
  set_trace
    (trace s ++ [Connection_SendMessage "speech.config" speechConfig_dump
                   USP.MessageType_Config])
    (set_m_speechConfig speechConfig_dump
       (set_properties
          (<[GetPropertyName PropertyId.SpeechServiceConnection_Url := GetConnectionUrl c]>
             (properties s))
          (set_m_lastConnectTime (now_connect env)
             (set_m_uspState UspState.Idle
                (set_m_uspConnection (Some c)
                   (set_m_uspCallbacks (Some CSpxUspCallbackWrapper) s)))))).

Definition after_UspInitialize (env : Env) (s : Adapter) : Adapter :=
  match Connect env with
  | Connected c => established env c (connect_attempted s)
  | ConnectedNull => connect_attempted s
  | ThrowsException what => after_OnError USP.ConnectionError what (connect_attempted s)
  | ThrowsOther =>
      after_OnError USP.ConnectionError "Error: Unexpected exception in UspInitialize"
        (connect_attempted s)
  end.

Definition after_EnsureUspConnection (env : Env) (s : Adapter) : Adapter :=
  match m_uspConnection s with
  | None => after_UspInitialize env s
  | Some _ =>
      if negb (IsConnected env)
         || (reconnect_after_ticks <? GetTicks (now_check env - m_lastConnectTime s)%Z)
      then after_UspInitialize env (after_UspTerminate s)
      else s
  end.

(** Nine minutes, in ticks of 100 nanoseconds. *)
Definition nine_minutes : N := 9 * 60 * 10000000.

(** The configured authorization token of the property bag. *)
Definition configured_token (s : Adapter) : string :=
  default "" (properties s !! GetPropertyName PropertyId.SpeechServiceAuthorization_Token).

(** The bytes in [m_currentReceivedData] after one more event. *)
Definition received1 (data : list byte) (ev : Event) : list byte :=
  match ev with
  | TurnStartMsg => []
  | AudioOutputChunkMsg audioBuffer => data ++ audioBuffer
  | _ => data
  end.

(** The events that leave the caller waiting: all but turn-end and error. *)
Definition in_flight (ev : Event) : bool :=
  match ev with
  | TurnEndMsg | ErrorMsg _ _ _ => false
  | _ => true
  end.

(** The events between turn-start and turn-end. *)
Definition streaming (ev : Event) : bool :=
  match ev with
  | AudioOutputChunkMsg _ | AudioOutputMetadataMsg _ => true
  | _ => false
  end.

(** The payload of an audio chunk; other events carry no audio. *)
Definition payload (ev : Event) : list byte :=
  match ev with
  | AudioOutputChunkMsg audioBuffer => audioBuffer
  | _ => []
  end.

(** The callbacks for [events], one after the other. *)
Fixpoint deliver (fuel : nat) (events : list Event) : M unit :=
  match events with
  | [] => mret tt
  | ev :: events' => dispatch fuel ev ;; deliver fuel events'
  end.

(** The adapter when [Speak] starts to wait. *)
Definition request_sent (env : Env) (text : string) (isSsml : bool) (requestId : wstring)
    (s : Adapter) : Adapter :=
  let ssml :=
    if negb isSsml then
      BuildSsml text
        (default "" (properties s
                       !! GetPropertyName PropertyId.SpeechServiceConnection_SynthLanguage))
        (default "" (properties s
                       !! GetPropertyName PropertyId.SpeechServiceConnection_SynthVoice))
    else text in
  let s1 := after_EnsureUspConnection env s in
  let s2 :=
    set_m_uspState UspState.Sending
      (set_m_currentErrorMessage ""
         (set_m_currentErrorCode (USP.Unnamed 0)
            (set_m_currentTextOffset 0
               (set_m_currentTextIsSsml isSsml
                  (set_m_currentText (ToWString text)
                     (set_m_currentRequestId requestId s1)))))) in
  match m_uspConnection s1 with
  | Some _ =>
      set_trace
        (trace s2 ++
           [Connection_SendMessage "synthesis.context"
              (synthesisContext_dump (GetOutputFormatString (m_audioOutput s1))
                 (default "true"
                    (properties s1 !! "SpeechServiceResponse_Synthesis_WordBoundaryEnabled"))
                 (default "false"
                    (properties s1
                       !! "SpeechServiceResponse_Synthesis_SentenceBoundaryEnabled")))
              USP.MessageType_Context;
            Connection_SendMessage "ssml" ssml USP.MessageType_Ssml])
        s2
  | None => s2
  end.

(** The result [Speak] builds once it has been woken. *)
Definition synthesis_result (requestId : wstring) (s : Adapter) : SynthesisResult :=
  if bool_decide (m_uspState s = UspState.Error) then
    {| resultId := requestId;
       reason := Canceled;
       cancellationReason := CancellationReason_Error;
       errorCode := UspErrorCodeToCancellationErrorCode (m_currentErrorCode s);
       audio := [];
       format := GetFormat (m_audioOutput s);
       hasHeader := HasHeader (m_audioOutput s);
       ReasonDetailedText := Some (string_data (m_currentErrorMessage s)) |}
  else
    {| resultId := requestId;
       reason := SynthesizingAudioCompleted;
       cancellationReason := REASON_CANCELED_NONE;
       errorCode := CancellationErrorCode.NoError;
       audio := m_currentReceivedData s;
       format := GetFormat (m_audioOutput s);
       hasHeader := HasHeader (m_audioOutput s);
       ReasonDetailedText := None |}.

Definition after_OnTurnEnd (s : Adapter) : Adapter :=
  set_trace (trace s ++ [cv_notify_all]) (set_m_uspState UspState.Idle s).

End Closed_forms.

(** ** Initialisation

    [Init] and [GetProxySetting]. They write members that the rest of the
    adapter only reads, so they are modelled on a record of those members,
    with the property bag as an argument. *)

Module Initialisation.

(** Functions and constants that [Init] uses and that are defined
    elsewhere: the names of the properties it reads, [std::stoi] ([None]
    when it throws), the endpoint helpers of [CSpxSynthesisHelper] and the
    URL fragments. *)
Class Helpers := {
  SpeechServiceConnection_Endpoint : string;
  SpeechServiceConnection_Region : string;
  SpeechServiceConnection_Key : string;
  SpeechServiceConnection_ProxyHostName : string;
  SpeechServiceConnection_ProxyPort : string;
  SpeechServiceConnection_ProxyUserName : string;
  SpeechServiceConnection_ProxyPassword : string;
  stoi : string → option Z;
  IsCustomVoiceEndpoint : string → bool;
  IsStandardVoiceEndpoint : string → bool;
  ParseRegionFromCognitiveServiceEndpoint : string → string;
  HTTPS_URL_PREFIX : string;
  ISSUE_TOKEN_HOST_SUFFIX : string;
  ISSUE_TOKEN_URL_PATH : string;
  WSS_URL_PREFIX : string;
  TTS_COGNITIVE_SERVICE_HOST_SUFFIX : string;
  TTS_COGNITIVE_SERVICE_WSS_URL_PATH : string }.

(** The arguments [CSpxRestTtsAuthenticator] is constructed with. *)
Record CSpxRestTtsAuthenticator := {
  issueTokenUrl : string;
  subscriptionKey : string;
  proxyHost : string;
  proxyPort : Z;
  proxyUsername : string;
  proxyPassword : string }.

(** The members [Init] writes; [PlatformInit] holds the arguments of the
    call of [USP::PlatformInit], once it has been made. *)
Record Members := {
  m_threadService : bool;
  m_proxyHost : string;
  m_proxyPort : Z;
  m_proxyUsername : string;
  m_proxyPassword : string;
  m_endpoint : string;
  m_authenticator : option CSpxRestTtsAuthenticator;
  PlatformInit : option (string * Z * string * string) }.

Inductive Exception :=
| std_stoi_exception
| InvalidArgumentException (port : Z)
| RuntimeError (message : string).

Inductive Outcome :=
| Returns (s : Members)
| Throws (e : Exception) (s : Members).

Section Init.
Context `{Helpers}.

Definition GetProxySetting (properties : gmap string string) (s : Members) : Outcome :=
  let s := {| m_threadService := m_threadService s;
              m_proxyHost := default "" (properties !! SpeechServiceConnection_ProxyHostName);
              m_proxyPort := m_proxyPort s;
              m_proxyUsername := m_proxyUsername s;
              m_proxyPassword := m_proxyPassword s;
              m_endpoint := m_endpoint s;
              m_authenticator := m_authenticator s;
              PlatformInit := PlatformInit s |} in
  match stoi (default "0" (properties !! SpeechServiceConnection_ProxyPort)) with
  | None => Throws std_stoi_exception s
  | Some port =>
      let s := {| m_threadService := m_threadService s;
                  m_proxyHost := m_proxyHost s;
                  m_proxyPort := port;
                  m_proxyUsername := m_proxyUsername s;
                  m_proxyPassword := m_proxyPassword s;
                  m_endpoint := m_endpoint s;
                  m_authenticator := m_authenticator s;
                  PlatformInit := PlatformInit s |} in
      if (m_proxyPort s <? 0)%Z then Throws (InvalidArgumentException (m_proxyPort s)) s
      else
        Returns
          {| m_threadService := m_threadService s;
             m_proxyHost := m_proxyHost s;
             m_proxyPort := m_proxyPort s;
             m_proxyUsername :=
               default "" (properties !! SpeechServiceConnection_ProxyUserName);
             m_proxyPassword :=
               default "" (properties !! SpeechServiceConnection_ProxyPassword);
             m_endpoint := m_endpoint s;
             m_authenticator := m_authenticator s;
             PlatformInit := PlatformInit s |}
  end.

(** The assignments [m_endpoint = ...] and [m_authenticator = ...]. *)
Definition set_endpoint (endpoint : string) (s : Members) : Members :=
  {| m_threadService := m_threadService s;
     m_proxyHost := m_proxyHost s;
     m_proxyPort := m_proxyPort s;
     m_proxyUsername := m_proxyUsername s;
     m_proxyPassword := m_proxyPassword s;
     m_endpoint := endpoint;
     m_authenticator := m_authenticator s;
     PlatformInit := PlatformInit s |}.

Definition set_authenticator (authenticator : CSpxRestTtsAuthenticator) (s : Members)
  : Members :=
  {| m_threadService := m_threadService s;
     m_proxyHost := m_proxyHost s;
     m_proxyPort := m_proxyPort s;
     m_proxyUsername := m_proxyUsername s;
     m_proxyPassword := m_proxyPassword s;
     m_endpoint := m_endpoint s;
     m_authenticator := Some authenticator;
     PlatformInit := PlatformInit s |}.

(** [std::make_shared<CSpxRestTtsAuthenticator>(issueTokenUrl,
    subscriptionKey, m_proxyHost, m_proxyPort, m_proxyUsername,
    m_proxyPassword)] for the token URL of [region]. *)
Definition make_authenticator (region key : string) (s : Members)
  : CSpxRestTtsAuthenticator :=
  let issueTokenUrl :=
    ((HTTPS_URL_PREFIX +:+ region) +:+ ISSUE_TOKEN_HOST_SUFFIX) +:+ ISSUE_TOKEN_URL_PATH in
  {| issueTokenUrl := issueTokenUrl;
     subscriptionKey := key;
     proxyHost := m_proxyHost s;
     proxyPort := m_proxyPort s;
     proxyUsername := m_proxyUsername s;
     proxyPassword := m_proxyPassword s |}.

Definition empty (str : string) : bool := String.eqb str "".

Definition Init (properties : gmap string string) (s : Members) : Outcome :=
  let s := {| m_threadService := true;
              m_proxyHost := m_proxyHost s;
              m_proxyPort := m_proxyPort s;
              m_proxyUsername := m_proxyUsername s;
              m_proxyPassword := m_proxyPassword s;
              m_endpoint := m_endpoint s;
              m_authenticator := m_authenticator s;
              PlatformInit := PlatformInit s |} in
  match GetProxySetting properties s with
  | Throws e s => Throws e s
  | Returns s =>
      let s := {| m_threadService := m_threadService s;
                  m_proxyHost := m_proxyHost s;
                  m_proxyPort := m_proxyPort s;
                  m_proxyUsername := m_proxyUsername s;
                  m_proxyPassword := m_proxyPassword s;
                  m_endpoint := m_endpoint s;
                  m_authenticator := m_authenticator s;
                  PlatformInit :=
                    Some (m_proxyHost s, m_proxyPort s, m_proxyUsername s,
                          m_proxyPassword s) |} in
      let endpoint := default "" (properties !! SpeechServiceConnection_Endpoint) in
      let region := default "" (properties !! SpeechServiceConnection_Region) in
      let subscriptionKey := default "" (properties !! SpeechServiceConnection_Key) in
      if negb (empty endpoint) && negb (IsCustomVoiceEndpoint endpoint)
         && negb (IsStandardVoiceEndpoint endpoint)
      then
        Returns (set_endpoint endpoint s)
      else if negb (empty endpoint) && IsCustomVoiceEndpoint endpoint then
        let s := set_endpoint endpoint s in
        let region := ParseRegionFromCognitiveServiceEndpoint endpoint in
        Returns (set_authenticator (make_authenticator region subscriptionKey s) s)
      else if (empty endpoint && negb (empty region))
              || (negb (empty endpoint) && IsStandardVoiceEndpoint endpoint)
      then
        let s :=
          if empty endpoint && negb (empty region)
          then set_endpoint
                 (((WSS_URL_PREFIX +:+ region) +:+ TTS_COGNITIVE_SERVICE_HOST_SUFFIX)
                    +:+ TTS_COGNITIVE_SERVICE_WSS_URL_PATH) s
          else s in
        let '(s, region) :=
          if negb (empty endpoint) && IsStandardVoiceEndpoint endpoint
          then (set_endpoint endpoint s, ParseRegionFromCognitiveServiceEndpoint endpoint)
          else (s, region) in
        Returns (set_authenticator (make_authenticator region subscriptionKey s) s)
      else
        Throws
          (RuntimeError "Invalid combination of endpoint, region and(or) subscription key.")
          s
  end.

End Init.

End Initialisation.

(** Concrete helpers, for running [Init]. *)
Module Demo_Init.

Fixpoint digits (acc : option Z) (str : string) : option Z :=
  match str with
  | EmptyString => acc
  | String c rest =>
      let d := (Z.of_N (N_of_ascii c) - 48)%Z in
      if (0 <=? d)%Z && (d <=? 9)%Z
      then digits (Some (10 * default 0%Z acc + d)%Z) rest
      else None
  end.

#[global] Instance helpers : Initialisation.Helpers := {|
  Initialisation.SpeechServiceConnection_Endpoint := "Endpoint";
  Initialisation.SpeechServiceConnection_Region := "Region";
  Initialisation.SpeechServiceConnection_Key := "Key";
  Initialisation.SpeechServiceConnection_ProxyHostName := "ProxyHostName";
  Initialisation.SpeechServiceConnection_ProxyPort := "ProxyPort";
  Initialisation.SpeechServiceConnection_ProxyUserName := "ProxyUserName";
  Initialisation.SpeechServiceConnection_ProxyPassword := "ProxyPassword";
  Initialisation.stoi := λ str,
    match str with
    | String "-" rest => Z.opp <$> digits None rest
    | _ => digits None str
    end;
  Initialisation.IsCustomVoiceEndpoint := String.eqb "wss://custom.voice/v1";
  Initialisation.IsStandardVoiceEndpoint := String.eqb "wss://standard.voice/v1";
  Initialisation.ParseRegionFromCognitiveServiceEndpoint := λ _, "parsed";
  Initialisation.HTTPS_URL_PREFIX := "https://";
  Initialisation.ISSUE_TOKEN_HOST_SUFFIX := ".api.cognitive.microsoft.com";
  Initialisation.ISSUE_TOKEN_URL_PATH := "/sts/v1.0/issueToken";
  Initialisation.WSS_URL_PREFIX := "wss://";
  Initialisation.TTS_COGNITIVE_SERVICE_HOST_SUFFIX := ".tts.speech.microsoft.com";
  Initialisation.TTS_COGNITIVE_SERVICE_WSS_URL_PATH := "/cognitiveservices/websocket/v1" |}.

(** The members of a freshly constructed adapter. *)
Definition constructed : Initialisation.Members := {|
  Initialisation.m_threadService := false;
  Initialisation.m_proxyHost := "";
  Initialisation.m_proxyPort := 0%Z;
  Initialisation.m_proxyUsername := "";
  Initialisation.m_proxyPassword := "";
  Initialisation.m_endpoint := "";
  Initialisation.m_authenticator := None;
  Initialisation.PlatformInit := None |}.

End Demo_Init.

(** ** Notions used by the further properties *)


(** [effects] are word boundaries in text order: each starts at or after
    [cursor], the next ones at or after its end, and the last one ends at
    [last]. *)
Fixpoint boundaries_from (cursor : N) (effects : list Effect) (last : N) : Prop :=
  match effects with
  | [] => cursor = last
  | FireWordBoundary _ textOffset wordLength :: effects' =>
      cursor ≤ textOffset ∧ boundaries_from (textOffset + wordLength) effects' last
  | _ :: _ => False
  end.

(** The bytes handed to the site by the [Write] calls among [effects]:
    the first [size] bytes of each buffer. *)
Definition site_written (effects : list Effect) : list byte :=
  mjoin ((λ e, match e with
               | Site_Write _ buffer size => take (N.to_nat size) buffer
               | _ => []
               end) <$> effects).

(** The messages sent over the connection among [effects]. *)
Definition is_SendMessage (e : Effect) : bool :=
  match e with Connection_SendMessage _ _ _ => true | _ => false end.

Definition sent_messages (effects : list Effect) : list Effect :=
  filter is_SendMessage effects.

(** The members that only the connection life cycle writes, and those
    [Speak] only reads. *)
Definition same_connection (s s' : Adapter) : Prop :=
  m_uspConnection s' = m_uspConnection s
  ∧ m_uspCallbacks s' = m_uspCallbacks s
  ∧ m_lastConnectTime s' = m_lastConnectTime s
  ∧ properties s' = properties s
  ∧ m_audioOutput s' = m_audioOutput s
  ∧ m_currentRequestId s' = m_currentRequestId s.

(** A [Write] to the site: made for the request [requestId], with the
    whole of a buffer that is not empty. *)
Definition site_write_for (requestId : wstring) (e : Effect) : Prop :=
  match e with
  | Site_Write id buffer size =>
      id = requestId ∧ buffer ≠ [] ∧ size = N.of_nat (length buffer)
  | _ => True
  end.

(** The chunk of [ev] fits the 32-bit size that [Write] takes. *)
Definition fits_uint32 (ev : Event) : Prop :=
  match ev with
  | AudioOutputChunkMsg audioBuffer => N.of_nat (length audioBuffer) < 2 ^ 32
  | _ => True
  end.

Section Further_notions.
Context `{Externals}.

(** [EnsureUspConnection] calls [UspInitialize]. *)
Definition reconnects (env : Env) (s : Adapter) : bool :=
  match m_uspConnection s with
  | None => true
  | Some _ =>
      negb (IsConnected env)
      || (reconnect_after_ticks <? GetTicks (now_check env - m_lastConnectTime s)%Z)
  end.

End Further_notions.

(** ** The error translator *)

(** C4. Each of the eight documented codes is translated to the
    cancellation code of the same meaning, the eight results are pairwise
    distinct, the table has no other key, and a code that is not a key
    of the table is translated to [NoError]. *)
Theorem UspErrorCodeToCancellationErrorCode_table (c : USP.ErrorCode)
    (Habsent : uspErrorCodeToCancellationErrorCodeMapping !! c = None) :
  UspErrorCodeToCancellationErrorCode c = CancellationErrorCode.NoError
  ∧ UspErrorCodeToCancellationErrorCode <$> documented_codes =
      [ CancellationErrorCode.AuthenticationFailure; CancellationErrorCode.BadRequest;
        CancellationErrorCode.ConnectionFailure; CancellationErrorCode.Forbidden;
        CancellationErrorCode.RuntimeError; CancellationErrorCode.ServiceError;
        CancellationErrorCode.ServiceUnavailable; CancellationErrorCode.TooManyRequests ]
  ∧ NoDup (UspErrorCodeToCancellationErrorCode <$> documented_codes)
  ∧ dom uspErrorCodeToCancellationErrorCodeMapping = list_to_set documented_codes.
Proof.
  split; [| split; [| split]].
  - unfold UspErrorCodeToCancellationErrorCode. now rewrite Habsent.
  - vm_compute. reflexivity.
  - compute_done.
  - compute_done.
Qed.

Lemma UspErrorCodeToCancellationErrorCode_table_witness :
  uspErrorCodeToCancellationErrorCodeMapping !! USP.Unnamed 0 = None
  ∧ UspErrorCodeToCancellationErrorCode (USP.Unnamed 0) = CancellationErrorCode.NoError.
Proof.
  assert (Habsent : uspErrorCodeToCancellationErrorCodeMapping !! USP.Unnamed 0 = None)
    by (vm_compute; reflexivity).
  split; [exact Habsent |].
  exact (proj1 (UspErrorCodeToCancellationErrorCode_table (USP.Unnamed 0) Habsent)).
Defined.

(** ** The word-boundary aligner *)

(** Runs the monadic plumbing of a definition that has been unfolded. *)
Ltac run_M :=
  cbv beta iota delta [mbind mret M_bind M_ret get modify emit throw when run_loop].

(** A loop whose body stores the same value again leaves at its first test
    or not at all. *)
Lemma while_same {A} (cond : A → bool) (a : A) (fuel : nat) :
  while fuel cond (λ _, a) a = if cond a then None else Some a.
Proof.
  induction fuel as [| fuel IH]; simpl.
  - reflexivity.
  - rewrite IH. destruct (cond a); reflexivity.
Qed.

Lemma starts_with_take (s hay : wstring) :
  starts_with s hay = true → take (length s) hay = s.
Proof.
  revert hay. induction s as [| c s IH]; intros [| h hay]; simpl; try done.
  intros [Hc Hs]%andb_true_iff. apply N.eqb_eq in Hc. subst h.
  f_equal. now apply IH.
Qed.

Lemma find_in_Some (s hay : wstring) (xpos off : nat) :
  find_in s hay xpos = Some off →
  (xpos ≤ off ≤ xpos + length hay)%nat ∧ take (length s) (drop (off - xpos) hay) = s.
Proof.
  revert xpos. induction hay as [| h hay IH]; intros xpos; simpl.
  - destruct (starts_with s []) eqn:Hs; [| done].
    intros [= <-]. rewrite Nat.sub_diag. split; [lia |].
    now apply starts_with_take.
  - destruct (starts_with s (h :: hay)) eqn:Hs.
    + intros [= <-]. rewrite Nat.sub_diag. split; [lia |].
      now apply starts_with_take.
    + intros Hfind. apply IH in Hfind as [Hle Htake]. split; [lia |].
      replace (off - xpos)%nat with (S (off - S xpos)) by lia. exact Htake.
Qed.

(** What [find] returns is an occurrence of [s] at or after [pos]. *)
Lemma find_Some (str s : wstring) (pos off : nat) :
  find str s pos = Some off →
  (pos ≤ off)%nat ∧ take (length s) (drop off str) = s
  ∧ (off + length s ≤ length str)%nat.
Proof.
  unfold find. destruct (pos <=? length str)%nat eqn:Hpos; [| done].
  apply Nat.leb_le in Hpos.
  intros [Hle Htake]%find_in_Some. rewrite drop_drop in Htake.
  rewrite length_drop in Hle.
  replace (pos + (off - pos))%nat with off in Htake by lia.
  split; [lia |]. split; [exact Htake |].
  apply (f_equal length) in Htake. rewrite length_take, length_drop in Htake.
  lia.
Qed.

(** [OnWordBoundary] in closed form: the re-search starts at
    [m_currentTextOffset] again, so it returns the occurrence it has just
    rejected. *)
Lemma OnWordBoundary_run (fuel : nat) (wb : TextBoundary) (s : Adapter) :
  OnWordBoundary fuel wb s =
    match find (m_currentText s) (c_str (text wb)) (N.to_nat (m_currentTextOffset s)) with
    | Some textOffset =>
        if m_currentTextIsSsml s
           && InSsmlTag textOffset (m_currentText s) (N.to_nat (m_currentTextOffset s))
        then Hangs s
        else Ok tt (fired wb textOffset s)
    | None => Ok tt s
    end.
Proof.
  unfold OnWordBoundary. run_M.
  destruct (m_currentTextIsSsml s); run_M.
  - rewrite while_same.
    destruct (find _ _ _) as [textOffset |]; run_M; [| reflexivity].
    destruct (InSsmlTag _ _ _); reflexivity.
  - destruct (find _ _ _) as [textOffset |]; reflexivity.
Qed.

(** [InSsmlTag] never reads the character at [beginningPos]: the scan
    stops as soon as [pos] reaches it. *)
Lemma InSsmlTag_scan_insert (ssml : wstring) (beginningPos pos : nat) (c : wchar_t) :
  InSsmlTag_scan (<[beginningPos := c]> ssml) beginningPos pos
  = InSsmlTag_scan ssml beginningPos pos.
Proof.
  induction pos as [| pos IH]; simpl; [reflexivity |].
  destruct (beginningPos <? S pos)%nat eqn:Hlt; [| reflexivity].
  apply Nat.ltb_lt in Hlt.
  rewrite list_lookup_insert_ne by lia. rewrite IH. reflexivity.
Qed.

Lemma InSsmlTag_insert (currentPos : nat) (ssml : wstring) (beginningPos : nat) (c : wchar_t) :
  InSsmlTag currentPos (<[beginningPos := c]> ssml) beginningPos
  = InSsmlTag currentPos ssml beginningPos.
Proof.
  unfold InSsmlTag. rewrite length_insert, InSsmlTag_scan_insert. reflexivity.
Qed.

(** C1. On the text ["Hello <mark/> world"] in markup mode, with the cursor
    at 0 and the reported word ["mark"], the only occurrence (offset 7) is
    found and classified as inside a tag; the search is then repeated from
    the unchanged cursor, finds offset 7 again, and the loop is still
    running after any number of iterations: no notification is fired, the
    cursor is not written, and the callback does not return. *)
Theorem OnAudioOutputMetadata_tag_interior_hangs `{Externals}
    (fuel : nat) (m : Metadata) (rest : list Metadata) (s : Adapter)
    (Htext : m_currentText s = L "Hello <mark/> world")
    (Hssml : m_currentTextIsSsml s = true)
    (Hcursor : m_currentTextOffset s = 0)
    (Htype : is_word_boundary (type m) = true)
    (Hword : text (textBoundary m) = L "mark") :
  find (m_currentText s) (c_str (text (textBoundary m))) 0 = Some 7%nat
  ∧ InSsmlTag 7 (m_currentText s) 0 = true
  ∧ find (m_currentText s) (c_str (text (textBoundary m))) 8 = None
  ∧ OnAudioOutputMetadata fuel (m :: rest) s = Hangs s.
Proof.
  rewrite Htext, Hword.
  split; [reflexivity |]. split; [reflexivity |]. split; [reflexivity |].
  simpl. rewrite Htype. run_M.
  rewrite OnWordBoundary_run, Htext, Hssml, Hcursor, Hword. reflexivity.
Qed.

Lemma OnAudioOutputMetadata_tag_interior_hangs_witness :
  OnAudioOutputMetadata 1000 [Demo.word "mark"] (Demo.receiving "Hello <mark/> world" true)
  = Hangs (Demo.receiving "Hello <mark/> world" true).
Proof.
  apply (OnAudioOutputMetadata_tag_interior_hangs 1000 (Demo.word "mark") []
           (Demo.receiving "Hello <mark/> world" true)); reflexivity.
Defined.

(** C9. On the markup text ["<mark/>"] with the cursor at 0 and the
    reported word ["mark"], the backward scan from offset 1 stops when it
    reaches the cursor, without reading the ['<'] there: the occurrence is
    classified as outside a tag, a boundary is fired at offset 1 and the
    cursor moves to 5. *)
Theorem InSsmlTag_tag_open_at_cursor
    (fuel : nat) (wb : TextBoundary) (s : Adapter)
    (Htext : m_currentText s = L "<mark/>")
    (Hssml : m_currentTextIsSsml s = true)
    (Hcursor : m_currentTextOffset s = 0)
    (Hword : text wb = L "mark") :
  (L "<mark/>") !! 0%nat = Some chr_lt
  ∧ find (m_currentText s) (c_str (text wb)) 0 = Some 1%nat
  ∧ InSsmlTag 1 (m_currentText s) 0 = false
  ∧ OnWordBoundary fuel wb s = Ok tt (fired wb 1 s)
  ∧ m_currentTextOffset (fired wb 1 s) = 5
  ∧ trace (fired wb 1 s) = trace s ++ [FireWordBoundary (audioOffset wb) 1 4].
Proof.
  rewrite OnWordBoundary_run, Htext, Hssml, Hcursor.
  unfold fired, next_offset. rewrite Hword.
  repeat split; reflexivity.
Qed.

Lemma InSsmlTag_tag_open_at_cursor_witness :
  InSsmlTag 1 (L "<mark/>") 0 = false
  ∧ OnWordBoundary 1000 (textBoundary (Demo.word "mark")) (Demo.receiving "<mark/>" true)
    = Ok tt (fired (textBoundary (Demo.word "mark")) 1 (Demo.receiving "<mark/>" true)).
Proof.
  pose proof (InSsmlTag_tag_open_at_cursor 1000 (textBoundary (Demo.word "mark"))
                (Demo.receiving "<mark/>" true) eq_refl eq_refl eq_refl eq_refl)
    as (_ & _ & Hscan & Hrun & _).
  split; [exact Hscan | exact Hrun].
Defined.

(** *** The cursor *)

Lemma uint32_small (n : N) : n < 2 ^ 32 → uint32 n = n.
Proof. apply N.mod_small. Qed.

(** An alignment step writes [m_currentTextOffset] and [trace] and nothing
    else. *)
Lemma OnWordBoundary_frame (fuel : nat) (wb : TextBoundary) (s s' : Adapter) :
  OnWordBoundary fuel wb s = Ok tt s' →
  ∃ offset tr, s' = set_trace tr (set_m_currentTextOffset offset s).
Proof.
  rewrite OnWordBoundary_run.
  destruct (find _ _ _) as [textOffset |].
  - destruct (_ && _); [done |]. intros [= <-]. unfold fired. eauto.
  - intros [= <-]. exists (m_currentTextOffset s), (trace s). now destruct s.
Qed.

Section Metadata.
Context `{Externals}.

Lemma OnAudioOutputMetadata_frame (fuel : nat) (metadatas : list Metadata) (s s' : Adapter) :
  OnAudioOutputMetadata fuel metadatas s = Ok tt s' →
  ∃ offset tr, s' = set_trace tr (set_m_currentTextOffset offset s).
Proof.
  revert s. induction metadatas as [| m metadatas IH]; intros s; simpl.
  - intros [= <-]. exists (m_currentTextOffset s), (trace s). now destruct s.
  - run_M. destruct (is_word_boundary (type m)).
    + destruct (OnWordBoundary fuel (textBoundary m) s) as [[] s1 | |] eqn:Hstep; try done.
      apply OnWordBoundary_frame in Hstep as (o1 & t1 & ->).
      intros (o2 & t2 & ->)%IH. eauto.
    + apply IH.
Qed.

Lemma OnAudioOutputMetadata_app (fuel : nat) (before after : list Metadata) (s : Adapter) :
  OnAudioOutputMetadata fuel (before ++ after) s
  = (OnAudioOutputMetadata fuel before ;; OnAudioOutputMetadata fuel after) s.
Proof.
  revert s. induction before as [| m before IH]; intros s; simpl; [reflexivity |].
  run_M. destruct (is_word_boundary (type m)).
  - destruct (OnWordBoundary fuel (textBoundary m) s) as [[] s1 | |]; try reflexivity.
    apply IH.
  - apply IH.
Qed.

(** In plain-text mode every metadata callback returns. *)
Lemma OnAudioOutputMetadata_plain_returns (fuel : nat) (metadatas : list Metadata)
    (s : Adapter) :
  m_currentTextIsSsml s = false →
  ∃ s', OnAudioOutputMetadata fuel metadatas s = Ok tt s'.
Proof.
  revert s. induction metadatas as [| m metadatas IH]; intros s Hplain; simpl.
  - eexists. reflexivity.
  - run_M. destruct (is_word_boundary (type m)); [| now apply IH].
    rewrite OnWordBoundary_run, Hplain. simpl.
    destruct (find _ _ _); now apply IH.
Qed.

End Metadata.

(** One alignment step that returns, on a text and a word that fit the
    32-bit cursor. *)
Lemma OnWordBoundary_cursor (fuel : nat) (wb : TextBoundary) (s s' : Adapter) :
  N.of_nat (length (m_currentText s)) < 2 ^ 32 →
  c_str (text wb) = text wb →
  OnWordBoundary fuel wb s = Ok tt s' →
  match find (m_currentText s) (text wb) (N.to_nat (m_currentTextOffset s)) with
  | Some textOffset =>
      m_currentTextOffset s ≤ N.of_nat textOffset
      ∧ take (length (text wb)) (drop textOffset (m_currentText s)) = text wb
      ∧ m_currentTextOffset s' = N.of_nat textOffset + N.of_nat (length (text wb))
      ∧ trace s' = trace s ++ [FireWordBoundary (audioOffset wb) (N.of_nat textOffset)
                                 (N.of_nat (length (text wb)))]
  | None => s' = s
  end.
Proof.
  intros Hlen Hnul. rewrite OnWordBoundary_run, Hnul.
  destruct (find _ _ _) as [textOffset |] eqn:Hfind; [| now intros [= <-]].
  destruct (_ && _); [done |]. intros [= <-].
  apply find_Some in Hfind as (Hle & Htake & Hend).
  unfold fired, next_offset. cbn.
  rewrite !(uint32_small (N.of_nat textOffset)) by lia.
  rewrite !(uint32_small (N.of_nat (length (text wb)))) by lia.
  rewrite uint32_small by lia.
  repeat split; [lia | exact Htake].
Qed.

Section Cursor.
Context `{Externals}.

Lemma OnAudioOutputMetadata_monotone (fuel : nat) (metadatas : list Metadata)
    (s s' : Adapter) :
  N.of_nat (length (m_currentText s)) < 2 ^ 32 →
  words_are_c_strings metadatas →
  OnAudioOutputMetadata fuel metadatas s = Ok tt s' →
  m_currentTextOffset s ≤ m_currentTextOffset s'.
Proof.
  intros Hlen Hwords. revert s Hlen.
  induction Hwords as [| m metadatas Hm Hwords IH]; intros s Hlen; simpl.
  - intros [= <-]. lia.
  - run_M. destruct (is_word_boundary (type m)); [| now apply IH].
    destruct (OnWordBoundary fuel (textBoundary m) s) as [[] s1 | |] eqn:Hstep; try done.
    intros Hrest.
    pose proof (OnWordBoundary_cursor _ _ _ _ Hlen Hm Hstep) as Hcur.
    apply OnWordBoundary_frame in Hstep as Hframe. destruct Hframe as (o & t & Hs1).
    assert (m_currentText s1 = m_currentText s) as Htext by (subst s1; reflexivity).
    apply IH in Hrest; [| rewrite Htext; exact Hlen].
    destruct (find _ _ _).
    + destruct Hcur as (? & _ & ? & _). lia.
    + subst s1. lia.
Qed.

(** C7. For a text shorter than 2^32 code units and reported words
    without NUL: a run of the metadata callback over
    [before ++ m :: after], cut at the step for [m]: the cursor never
    decreases along the run, and at the step itself either the word is
    found at or after the cursor, the cursor moves to the end of that
    occurrence and one boundary is fired, or nothing is found and the
    adapter is left as it was. *)
Theorem m_currentTextOffset_non_decreasing
    (fuel : nat) (before : list Metadata) (m : Metadata) (after : list Metadata)
    (s s1 s2 s' : Adapter)
    (Hlen : N.of_nat (length (m_currentText s)) < 2 ^ 32)
    (Hwords : words_are_c_strings (before ++ m :: after))
    (Hbefore : OnAudioOutputMetadata fuel before s = Ok tt s1)
    (Hstep : OnAudioOutputMetadata fuel [m] s1 = Ok tt s2)
    (Hafter : OnAudioOutputMetadata fuel after s2 = Ok tt s') :
  OnAudioOutputMetadata fuel (before ++ m :: after) s = Ok tt s'
  ∧ m_currentTextOffset s ≤ m_currentTextOffset s1
  ∧ m_currentTextOffset s1 ≤ m_currentTextOffset s2
  ∧ m_currentTextOffset s2 ≤ m_currentTextOffset s'
  ∧ match (if is_word_boundary (type m)
           then find (m_currentText s1) (text (textBoundary m))
                  (N.to_nat (m_currentTextOffset s1))
           else None) with
    | Some textOffset =>
        m_currentTextOffset s1 ≤ N.of_nat textOffset
        ∧ take (length (text (textBoundary m))) (drop textOffset (m_currentText s1))
          = text (textBoundary m)
        ∧ m_currentTextOffset s2
          = N.of_nat textOffset + N.of_nat (length (text (textBoundary m)))
        ∧ trace s2 = trace s1 ++ [FireWordBoundary (audioOffset (textBoundary m))
                                    (N.of_nat textOffset)
                                    (N.of_nat (length (text (textBoundary m))))]
    | None => s2 = s1
    end.
Proof.
  apply Forall_app in Hwords as [Hwb Hwords].
  apply Forall_cons in Hwords as [Hwm Hwa].
  apply OnAudioOutputMetadata_frame in Hbefore as Hf1. destruct Hf1 as (o1 & t1 & Hs1).
  apply OnAudioOutputMetadata_frame in Hstep as Hf2. destruct Hf2 as (o2 & t2 & Hs2).
  assert (Hlen1 : N.of_nat (length (m_currentText s1)) < 2 ^ 32) by (subst s1; exact Hlen).
  assert (Hlen2 : N.of_nat (length (m_currentText s2)) < 2 ^ 32) by (subst s2; exact Hlen1).
  split.
  { rewrite OnAudioOutputMetadata_app. run_M. rewrite Hbefore.
    change (m :: after) with ([m] ++ after).
    rewrite OnAudioOutputMetadata_app. run_M. rewrite Hstep. exact Hafter. }
  split; [exact (OnAudioOutputMetadata_monotone _ _ _ _ Hlen Hwb Hbefore) |].
  split.
  { apply (OnAudioOutputMetadata_monotone fuel [m]); [exact Hlen1 | | exact Hstep].
    apply Forall_cons. split; [exact Hwm | apply Forall_nil_2]. }
  split; [exact (OnAudioOutputMetadata_monotone _ _ _ _ Hlen2 Hwa Hafter) |].
  clear Hs2. simpl in Hstep. revert Hstep. run_M.
  destruct (is_word_boundary (type m)); [| now intros [= <-]].
  destruct (OnWordBoundary fuel (textBoundary m) s1) as [[] s3 | |] eqn:Hwb1; try done.
  intros [= <-].
  exact (OnWordBoundary_cursor _ _ _ _ Hlen1 Hwm Hwb1).
Qed.

End Cursor.

Lemma m_currentTextOffset_non_decreasing_witness :
  ∃ s1 s2,
    OnAudioOutputMetadata 0 [Demo.word "cat"] (Demo.receiving "cat cat" false) = Ok tt s1
    ∧ OnAudioOutputMetadata 0 [Demo.word "cat"; Demo.word "cat"]
        (Demo.receiving "cat cat" false) = Ok tt s2
    ∧ m_currentTextOffset s1 = 3 ∧ m_currentTextOffset s2 = 7
    ∧ trace s2 = [FireWordBoundary 0 0 3; FireWordBoundary 0 4 3].
Proof.
  pose (s0 := Demo.receiving "cat cat" false).
  pose (s1 := fired (textBoundary (Demo.word "cat")) 0 s0).
  pose (s2 := fired (textBoundary (Demo.word "cat")) 4 s1).
  assert (Hlen : N.of_nat (length (m_currentText s0)) < 2 ^ 32) by (vm_compute; reflexivity).
  assert (Hwords : words_are_c_strings ([Demo.word "cat"] ++ Demo.word "cat" :: []))
    by (repeat constructor).
  assert (Hbefore : OnAudioOutputMetadata 0 [Demo.word "cat"] s0 = Ok tt s1)
    by (vm_compute; reflexivity).
  assert (Hstep : OnAudioOutputMetadata 0 [Demo.word "cat"] s1 = Ok tt s2)
    by (vm_compute; reflexivity).
  assert (Hafter : OnAudioOutputMetadata 0 [] s2 = Ok tt s2) by reflexivity.
  destruct (m_currentTextOffset_non_decreasing 0 [Demo.word "cat"] (Demo.word "cat") []
              s0 s1 s2 s2 Hlen Hwords Hbefore Hstep Hafter)
    as (Hrun & _ & _ & _ & Hat).
  exists s1, s2. vm_compute in Hat. destruct Hat as (_ & _ & Hcursor & Htrace).
  split; [reflexivity |]. split; [exact Hrun |].
  split; [reflexivity |]. split; [exact Hcursor | exact Htrace].
Defined.

(** A search past a run of one character. *)
Lemma find_in_replicate (n xpos : nat) :
  find_in [98] (replicate n 97 ++ [98]) xpos = Some (xpos + n)%nat.
Proof.
  revert xpos. induction n as [| n IH]; intros xpos; simpl.
  - f_equal. lia.
  - rewrite IH. f_equal. lia.
Qed.

(** Two steps that return and fire a boundary, without the side
    conditions. The word NUL, "b", "c" is searched as the empty C string:
    it is found at the cursor 1 of "abc", where the reported word does not
    occur, and the cursor moves by the full length to 4, past the end of
    the text. In a text of 2^32 code units the word "b" is found at
    offset 2^32 - 1 and the cursor, a 32-bit number, moves from 1 back
    to 0. *)
Lemma m_currentTextOffset_non_decreasing_counterexample :
  (∃ s2,
     OnAudioOutputMetadata 0
       [{| type := "WordBoundary";
           textBoundary := {| audioOffset := 0; text := [0; 98; 99] |} |}]
       (set_m_currentTextOffset 1 (Demo.receiving "abc" false)) = Ok tt s2
     ∧ trace s2 = [FireWordBoundary 0 1 3]
     ∧ m_currentTextOffset s2 = 4
     ∧ length (L "abc") = 3%nat
     ∧ ∀ p, take 3 (drop p (L "abc")) ≠ [0; 98; 99])
  ∧ (∃ s2,
       OnAudioOutputMetadata 0 [Demo.word "b"]
         (set_m_currentTextOffset 1
            (set_m_currentText (97 :: replicate (N.to_nat 4294967294) 97 ++ [98])
               (Demo.receiving "" false))) = Ok tt s2
       ∧ trace s2 = [FireWordBoundary 0 4294967295 1]
       ∧ m_currentTextOffset s2 = 0).
Proof.
  split.
  - eexists. split; [vm_compute; reflexivity |].
    split; [reflexivity |]. split; [reflexivity |]. split; [reflexivity |].
    intros [| [| [| [| p]]]]; vm_compute; discriminate.
  - remember (N.to_nat 4294967294) as n eqn:Hn.
    set (s := set_m_currentTextOffset 1 _).
    assert (Hfind : find (m_currentText s) (c_str (text (textBoundary (Demo.word "b"))))
                      (N.to_nat (m_currentTextOffset s)) = Some (1 + n)%nat).
    { change (find_in [98] (replicate n 97 ++ [98]) 1 = Some (1 + n)%nat).
      apply find_in_replicate. }
    exists (fired (textBoundary (Demo.word "b")) (1 + n) s). split.
    + change (OnAudioOutputMetadata 0 [Demo.word "b"] s)
        with (match OnWordBoundary 0 (textBoundary (Demo.word "b")) s with
              | Ok _ s' => Ok tt s'
              | Thrown e s' => Thrown e s'
              | Hangs s' => Hangs s'
              end).
      rewrite OnWordBoundary_run, Hfind. reflexivity.
    + assert (Hoffset : N.of_nat (1 + n) = 4294967295) by (subst n; lia).
      unfold fired, next_offset. rewrite Hoffset. split; reflexivity.
Qed.

(** ** Callbacks and connection life cycle in closed form *)

Ltac run_adapter :=
  cbv beta iota delta
    [mbind mret M_bind M_ret get modify emit throw when run_loop
     GetStringValue SetStringValue UspSendMessage SetSpeechConfigMessage
     UspSendSpeechConfig UspSendSynthesisContext UspSendSsml
     OnTurnStart OnAudioOutputChunk OnTurnEnd OnError UspTerminate
     authData_AuthorizationToken UspInitialize EnsureUspConnection Speak_send dispatch];
  simpl.

(** Equality of two adapter states written with the setters, once the
    state they start from is a constructor. *)
Ltac cbv_state :=
  cbv beta iota delta
    [set_m_uspState set_m_uspConnection set_m_uspCallbacks set_m_lastConnectTime
     set_m_speechConfig set_properties set_m_currentRequestId set_m_currentText
     set_m_currentTextIsSsml set_m_currentTextOffset set_m_currentErrorCode
     set_m_currentErrorMessage set_m_currentReceivedData set_trace
     m_uspState m_uspConnection m_uspCallbacks m_lastConnectTime m_authenticator
     m_endpoint m_proxyHost m_proxyPort m_proxyUsername m_proxyPassword m_audioOutput
     m_speechConfig properties m_currentRequestId m_currentText m_currentTextIsSsml
     m_currentTextOffset m_currentErrorCode m_currentErrorMessage m_currentReceivedData
     trace].

Section Runs.
Context `{Externals}.

Lemma OnError_run transport errorCode errorMessage s :
  OnError transport errorCode errorMessage s = Ok tt (after_OnError errorCode errorMessage s).
Proof. reflexivity. Qed.

Lemma UspTerminate_run s : UspTerminate s = Ok tt (after_UspTerminate s).
Proof.
  unfold after_UspTerminate. run_adapter.
  destruct (m_uspConnection s); reflexivity.
Qed.

Lemma authData_AuthorizationToken_run s :
  authData_AuthorizationToken s = Ok (credential s) s.
Proof.
  unfold credential. run_adapter.
  destruct (m_authenticator s) as [a |]; [| reflexivity].
  destruct (String.eqb (GetAccessToken a) ""); reflexivity.
Qed.

Lemma UspInitialize_run env s :
  UspInitialize env s =
    match m_uspConnection s with
    | Some _ => Thrown SPXERR_ALREADY_INITIALIZED s
    | None => Ok tt (after_UspInitialize env s)
    end.
Proof.
  unfold UspInitialize.
  change (get ≫= ?f) with (λ s0 : Adapter, f s0 s0). cbv beta.
  destruct (m_uspConnection s) eqn:Hconn; [reflexivity |].
  change ((authData_AuthorizationToken ≫= ?f) s)
    with (match authData_AuthorizationToken s with
          | Ok a s' => f a s'
          | Thrown e s' => Thrown e s'
          | Hangs s' => Hangs s'
          end).
  rewrite authData_AuthorizationToken_run.
  unfold after_UspInitialize, established, after_OnError, error_detail, connect_attempted,
    proxy_setting.
  destruct (Connect env); run_adapter; reflexivity.
Qed.

Lemma m_uspConnection_after_UspTerminate s :
  m_uspConnection (after_UspTerminate s) = None.
Proof.
  unfold after_UspTerminate.
  destruct (m_uspConnection s) eqn:Hconn; [reflexivity | exact Hconn].
Qed.

(** [EnsureUspConnection] always returns: [UspInitialize] is only called
    without a connection. *)
Lemma EnsureUspConnection_run env s :
  EnsureUspConnection env s = Ok tt (after_EnsureUspConnection env s).
Proof.
  unfold EnsureUspConnection, after_EnsureUspConnection.
  change (get ≫= ?f) with (λ s0 : Adapter, f s0 s0). cbv beta.
  destruct (m_uspConnection s) eqn:Hconn.
  - assert (Hre : (UspTerminate ;; UspInitialize env) s
                  = Ok tt (after_UspInitialize env (after_UspTerminate s))).
    { change ((UspTerminate ;; UspInitialize env) s)
        with (match UspTerminate s with
              | Ok _ s' => UspInitialize env s'
              | Thrown e s' => Thrown e s'
              | Hangs s' => Hangs s'
              end).
      rewrite UspTerminate_run, UspInitialize_run, m_uspConnection_after_UspTerminate.
      reflexivity. }
    destruct (negb (IsConnected env)); [exact Hre |].
    destruct (_ <? _); [exact Hre | reflexivity].
  - rewrite UspInitialize_run, Hconn. reflexivity.
Qed.

End Runs.

(** ** The connection life cycle *)

Section Connection.
Context `{Externals}.

Lemma trace_after_UspInitialize env s :
  ∃ rest,
    trace (after_UspInitialize env s)
    = trace s ++ Client_Connect (credential s) (m_endpoint s) (proxy_setting s) :: rest.
Proof.
  unfold after_UspInitialize, established, after_OnError, connect_attempted.
  destruct (Connect env); simpl; rewrite <- ?app_assoc; simpl; eexists; reflexivity.
Qed.

Lemma m_uspConnection_after_UspInitialize env s :
  m_uspConnection (after_UspInitialize env s)
  = match Connect env with
    | Connected c => Some c
    | _ => m_uspConnection s
    end.
Proof. unfold after_UspInitialize. destruct (Connect env); reflexivity. Qed.

(** C8. When [UspInitialize] creates a connection, the credential handed
    to [client.Connect()] is the authenticator's access token if there is
    an authenticator and its token is not empty; it is the configured
    authorization token of the property bag if there is no authenticator
    or its token is empty. *)
Theorem UspInitialize_credential (env : Env) (s : Adapter)
    (Hnull : m_uspConnection s = None) :
  ∃ s' token rest,
    UspInitialize env s = Ok tt s'
    ∧ trace s' = trace s ++ Client_Connect token (m_endpoint s) (proxy_setting s) :: rest
    ∧ match m_authenticator s with
      | Some authenticator =>
          if String.eqb (GetAccessToken authenticator) ""
          then token = configured_token s
          else token = GetAccessToken authenticator
      | None => token = configured_token s
      end.
Proof.
  destruct (trace_after_UspInitialize env s) as [rest Htrace].
  exists (after_UspInitialize env s), (credential s), rest.
  split; [rewrite UspInitialize_run, Hnull; reflexivity |].
  split; [exact Htrace |].
  unfold credential, configured_token.
  destruct (m_authenticator s) as [a |]; [| reflexivity].
  destruct (String.eqb (GetAccessToken a) ""); reflexivity.
Qed.

(** C6. [EnsureUspConnection] returns, and
    - without a connection it calls [client.Connect()], with no teardown
      before;
    - with a connection that reports disconnected, or whose age is above
      nine minutes, it releases the callbacks, releases the connection
      and then calls [client.Connect()];
    - with a connected connection of at most nine minutes it changes
      nothing and calls nothing.
    After an attempt the adapter holds the new connection if the connect
    step gave one, and none otherwise. *)
Theorem EnsureUspConnection_policy (env : Env) (s : Adapter) :
  reconnect_after_ticks = nine_minutes
  ∧ ∃ s',
      EnsureUspConnection env s = Ok tt s'
      ∧ match m_uspConnection s with
        | None =>
            (∃ rest,
               trace s' = trace s
                 ++ Client_Connect (credential s) (m_endpoint s) (proxy_setting s) :: rest)
            ∧ m_uspConnection s'
              = match Connect env with Connected c => Some c | _ => None end
        | Some _ =>
            if negb (IsConnected env)
               || (nine_minutes <? GetTicks (now_check env - m_lastConnectTime s)%Z)
            then
              (∃ rest,
                 trace s' = trace s
                   ++ SpxTermAndClear_uspCallbacks :: Connection_reset
                   :: Client_Connect (credential s) (m_endpoint s) (proxy_setting s) :: rest)
              ∧ m_uspConnection s'
                = match Connect env with Connected c => Some c | _ => None end
            else s' = s
        end.
Proof.
  assert (Hticks : reconnect_after_ticks = nine_minutes) by (vm_compute; reflexivity).
  split; [exact Hticks |].
  exists (after_EnsureUspConnection env s).
  split; [apply EnsureUspConnection_run |].
  unfold after_EnsureUspConnection. rewrite Hticks.
  destruct (m_uspConnection s) as [c |] eqn:Hconn.
  - destruct (negb (IsConnected env) || _); [| reflexivity].
    destruct (trace_after_UspInitialize env (after_UspTerminate s)) as [rest Htrace].
    rewrite m_uspConnection_after_UspInitialize, m_uspConnection_after_UspTerminate.
    split; [| destruct (Connect env); reflexivity].
    exists rest. rewrite Htrace.
    unfold after_UspTerminate. rewrite Hconn. simpl.
    rewrite <- !app_assoc. reflexivity.
  - rewrite m_uspConnection_after_UspInitialize, Hconn.
    split; [apply trace_after_UspInitialize | destruct (Connect env); reflexivity].
Qed.

End Connection.

Lemma UspInitialize_credential_witness :
  ∃ s' rest,
    UspInitialize Demo.env Demo.adapter = Ok tt s'
    ∧ trace s' = Client_Connect "token" (m_endpoint Demo.adapter) None :: rest.
Proof.
  destruct (UspInitialize_credential Demo.env Demo.adapter eq_refl)
    as (s' & token & rest & Hrun & Htrace & Htoken).
  simpl in Htoken. subst token. exists s', rest. split; [exact Hrun | exact Htrace].
Defined.

(** ** The session state machine *)

Lemma mbind_Ok {A B} (m : M A) (f : A → M B) (s : Adapter) (a : A) (s' : Adapter) :
  m s = Ok a s' → (m ≫= f) s = f a s'.
Proof. intros Hm. unfold mbind, M_bind. rewrite Hm. reflexivity. Qed.

Section Session.
Context `{Externals}.

Lemma Speak_send_run env text isSsml requestId s :
  Speak_send env text isSsml requestId s = Ok tt (request_sent env text isSsml requestId s).
Proof.
  unfold Speak_send, request_sent.
  destruct isSsml; cbv beta iota delta [mbind mret M_bind M_ret get GetStringValue negb].
  all: rewrite EnsureUspConnection_run.
  all: run_adapter.
  all: destruct (m_uspConnection (after_EnsureUspConnection env s)) eqn:Hconn; simpl.
  all: rewrite ?Hconn; simpl; rewrite <- ?app_assoc; clear Hconn.
  all: generalize (after_EnsureUspConnection env s); intros []; cbv_state; reflexivity.
Qed.

Lemma m_uspState_request_sent env text isSsml requestId s :
  m_uspState (request_sent env text isSsml requestId s) = UspState.Sending.
Proof.
  unfold request_sent.
  destruct (m_uspConnection (after_EnsureUspConnection env s)); reflexivity.
Qed.

Lemma m_uspConnection_request_sent env text isSsml requestId s :
  m_uspConnection (request_sent env text isSsml requestId s)
  = m_uspConnection (after_EnsureUspConnection env s).
Proof.
  unfold request_sent.
  destruct (m_uspConnection (after_EnsureUspConnection env s)) eqn:Hc; simpl; now rewrite Hc.
Qed.

Lemma m_currentReceivedData_after_EnsureUspConnection env s :
  m_currentReceivedData (after_EnsureUspConnection env s) = m_currentReceivedData s.
Proof.
  unfold after_EnsureUspConnection, after_UspInitialize, after_UspTerminate.
  destruct (m_uspConnection s); [destruct (_ || _) |]; destruct (Connect env); reflexivity.
Qed.

Lemma m_currentReceivedData_request_sent env text isSsml requestId s :
  m_currentReceivedData (request_sent env text isSsml requestId s) = m_currentReceivedData s.
Proof.
  unfold request_sent.
  destruct (m_uspConnection (after_EnsureUspConnection env s)); simpl;
    apply m_currentReceivedData_after_EnsureUspConnection.
Qed.

End Session.

Section Waiting.
Context `{Externals}.

Lemma Speak_run fuel env events text isSsml requestId s :
  Speak fuel env events text isSsml requestId s =
    let s1 := request_sent env text isSsml requestId s in
    match cv_wait fuel (match m_uspConnection s1 with Some _ => events | None => [] end) s1
    with
    | Ok _ s2 => Ok (synthesis_result requestId s2) s2
    | Thrown e s2 => Thrown e s2
    | Hangs s2 => Hangs s2
    end.
Proof.
  unfold Speak. erewrite mbind_Ok by apply Speak_send_run.
  cbv beta iota delta [mbind mret M_bind M_ret get].
  destruct (cv_wait _ _ _) as [[] s2 | |]; try reflexivity.
  unfold synthesis_result. destruct (bool_decide _); reflexivity.
Qed.

Lemma wait_pred_state (s : Adapter) :
  wait_pred s = match m_uspState s with
                | UspState.Idle | UspState.Error => true
                | _ => false
                end.
Proof. unfold wait_pred. destruct (m_uspState s); reflexivity. Qed.

Lemma cv_wait_woken fuel events s : wait_pred s = true → cv_wait fuel events s = Ok tt s.
Proof. intros Hwoken. destruct events; simpl; rewrite Hwoken; reflexivity. Qed.

Lemma cv_wait_cons fuel ev events s :
  wait_pred s = false →
  cv_wait fuel (ev :: events) s = (dispatch fuel ev ;; cv_wait fuel events) s.
Proof. intros Hwait. simpl. rewrite Hwait. reflexivity. Qed.

Lemma OnTurnEnd_run s : OnTurnEnd s = Ok tt (after_OnTurnEnd s).
Proof. reflexivity. Qed.

(** Turn-end and error wake the caller. *)
Lemma dispatch_wakes fuel ev s s' :
  in_flight ev = false → dispatch fuel ev s = Ok tt s' → wait_pred s' = true.
Proof.
  destruct ev as [| | | | transport code message]; try done; intros _; simpl.
  - rewrite OnTurnEnd_run. intros [= <-]. rewrite wait_pred_state. reflexivity.
  - rewrite OnError_run. intros [= <-]. rewrite wait_pred_state. reflexivity.
Qed.

(** An event other than turn-end and error: what its callback does to
    the fields [Speak] reads. *)
Lemma dispatch_in_flight fuel ev s s' :
  in_flight ev →
  dispatch fuel ev s = Ok tt s' →
  m_uspState s' = match ev with TurnStartMsg => UspState.Receiving | _ => m_uspState s end
  ∧ m_currentReceivedData s' = received1 (m_currentReceivedData s) ev
  ∧ m_audioOutput s' = m_audioOutput s.
Proof.
  destruct ev as [| audioBuffer | metadatas | |]; simpl; try done; intros _.
  - intros [= <-]. done.
  - unfold OnAudioOutputChunk. run_M.
    destruct (0 <? length audioBuffer)%nat; intros [= <-]; done.
  - intros (offset & tr & ->)%OnAudioOutputMetadata_frame. done.
Qed.

Lemma wait_pred_in_flight fuel ev s s' :
  in_flight ev → dispatch fuel ev s = Ok tt s' → wait_pred s = false → wait_pred s' = false.
Proof.
  intros Hev Hrun Hwait. destruct (dispatch_in_flight _ _ _ _ Hev Hrun) as (Hstate & _).
  unfold wait_pred in *. rewrite Hstate. destruct ev; done.
Qed.

Lemma deliver_in_flight fuel pre s s1 :
  Forall in_flight pre →
  deliver fuel pre s = Ok tt s1 →
  m_currentReceivedData s1 = foldl received1 (m_currentReceivedData s) pre
  ∧ m_audioOutput s1 = m_audioOutput s
  ∧ (wait_pred s = false → wait_pred s1 = false).
Proof.
  intros Hpre. revert s. induction Hpre as [| ev pre Hev Hpre IH]; intros s; simpl.
  - intros [= <-]. done.
  - run_M. destruct (dispatch fuel ev s) as [[] s0 | |] eqn:Hrun; try done.
    intros (Hdata & Hout & Hwait)%IH.
    destruct (dispatch_in_flight _ _ _ _ Hev Hrun) as (_ & Hdata0 & Hout0).
    rewrite Hdata, Hdata0, Hout, Hout0. repeat split.
    intros Hw. apply Hwait. exact (wait_pred_in_flight _ _ _ _ Hev Hrun Hw).
Qed.

(** While the events are in flight the caller stays suspended. *)
Lemma cv_wait_in_flight fuel pre rest s s2 :
  Forall in_flight pre →
  wait_pred s = false →
  cv_wait fuel (pre ++ rest) s = Ok tt s2 →
  ∃ s1, deliver fuel pre s = Ok tt s1 ∧ wait_pred s1 = false
        ∧ cv_wait fuel rest s1 = Ok tt s2.
Proof.
  intros Hpre. revert s. induction Hpre as [| ev pre Hev Hpre IH]; intros s Hwait.
  - intros Hrun. exists s. done.
  - simpl. rewrite Hwait. run_M.
    destruct (dispatch fuel ev s) as [[] s0 | |] eqn:Hrun; try done.
    apply IH. exact (wait_pred_in_flight _ _ _ _ Hev Hrun Hwait).
Qed.

Lemma foldl_received1_streaming (mids : list Event) (data : list byte) :
  Forall streaming mids →
  foldl received1 data mids = data ++ mjoin (payload <$> mids).
Proof.
  intros Hmids. revert data. induction Hmids as [| ev mids Hev Hmids IH]; intros data; simpl.
  - now rewrite app_nil_r.
  - rewrite IH. destruct ev; simpl in *; try done. now rewrite app_assoc.
Qed.

Lemma streaming_in_flight (mids : list Event) :
  Forall streaming mids → Forall in_flight mids.
Proof. intros Hmids. eapply Forall_impl; [exact Hmids |]. intros []; done. Qed.

(** The first event that is not in flight wakes the caller. *)
Lemma cv_wait_Ok fuel events s s2 :
  wait_pred s = false →
  cv_wait fuel events s = Ok tt s2 →
  ∃ pre ev rest s1,
    events = pre ++ ev :: rest ∧ Forall in_flight pre ∧ in_flight ev = false
    ∧ deliver fuel pre s = Ok tt s1 ∧ dispatch fuel ev s1 = Ok tt s2.
Proof.
  revert s. induction events as [| ev events IH]; intros s Hwait; simpl; rewrite Hwait.
  - done.
  - run_M. destruct (dispatch fuel ev s) as [[] s0 | |] eqn:Hrun; try done.
    destruct (in_flight ev) eqn:Hev.
    + intros Hrest. apply IH in Hrest as (pre & ev' & rest & s1 & -> & Hpre & Hev' & Hd & Hlast).
      * exists (ev :: pre), ev', rest, s1. simpl. run_M. rewrite Hrun.
        repeat split; try done. apply Forall_cons. split; [now rewrite Hev | exact Hpre].
      * apply (wait_pred_in_flight fuel ev s); [now rewrite Hev | exact Hrun | exact Hwait].
    + rewrite (cv_wait_woken fuel events s0) by exact (dispatch_wakes _ _ _ _ Hev Hrun).
      intros [= <-]. exists [], ev, events, s.
    split; [reflexivity |]. split; [apply Forall_nil_2 |]. split; [exact Hev |].
    split; [reflexivity | exact Hrun].
Qed.

End Waiting.

(** Empty buffers add nothing to a concatenation. *)
Lemma mjoin_nonempty (buffers : list (list byte)) :
  mjoin buffers = mjoin (filter (λ buffer, 0 < length buffer)%nat buffers).
Proof.
  induction buffers as [| buffer buffers IH]; [reflexivity |].
  rewrite filter_cons. destruct (decide _) as [Hlen | Hlen]; simpl; rewrite <- IH.
  - reflexivity.
  - destruct buffer; [reflexivity | simpl in Hlen; lia].
Qed.

Section Speak.
Context `{Externals}.

Lemma wait_pred_request_sent env text isSsml requestId s :
  wait_pred (request_sent env text isSsml requestId s) = false.
Proof. unfold wait_pred. now rewrite m_uspState_request_sent. Qed.

(** [Speak] that returned had a connection, and its wait returned. *)
Lemma Speak_Ok fuel env events text isSsml requestId s r s' :
  Speak fuel env events text isSsml requestId s = Ok r s' →
  cv_wait fuel events (request_sent env text isSsml requestId s) = Ok tt s'
  ∧ r = synthesis_result requestId s'.
Proof.
  rewrite Speak_run. cbv zeta.
  destruct (m_uspConnection (request_sent env text isSsml requestId s)).
  - destruct (cv_wait _ _ _) as [[] s2 | |]; try done. now intros [= <- <-].
  - simpl. now rewrite wait_pred_request_sent.
Qed.

(** In plain-text mode every callback returns. *)
Lemma dispatch_plain_returns fuel ev s :
  m_currentTextIsSsml s = false →
  ∃ s', dispatch fuel ev s = Ok tt s' ∧ m_currentTextIsSsml s' = false.
Proof.
  intros Hplain.
  destruct ev as [| audioBuffer | metadatas | | transport code message]; simpl.
  - eexists. split; [reflexivity | exact Hplain].
  - unfold OnAudioOutputChunk. run_M.
    destruct (0 <? length audioBuffer)%nat; eexists; (split; [reflexivity | exact Hplain]).
  - destruct (OnAudioOutputMetadata_plain_returns fuel metadatas s Hplain) as [s' Hrun].
    exists s'. split; [exact Hrun |].
    apply OnAudioOutputMetadata_frame in Hrun as (offset & tr & ->). exact Hplain.
  - eexists. split; [reflexivity | exact Hplain].
  - eexists. split; [apply OnError_run | exact Hplain].
Qed.

Lemma cv_wait_plain_returns fuel pre last rest s :
  m_currentTextIsSsml s = false →
  in_flight last = false →
  ∃ s', cv_wait fuel (pre ++ last :: rest) s = Ok tt s'.
Proof.
  intros Hplain Hlast. revert s Hplain.
  induction pre as [| ev pre IH]; intros s Hplain.
  - destruct (wait_pred s) eqn:Hwait; [exists s; now apply cv_wait_woken |].
    simpl app. rewrite cv_wait_cons by exact Hwait.
    destruct (dispatch_plain_returns fuel last s Hplain) as (s1 & Hrun & _).
    cbv beta iota delta [mbind M_bind]. rewrite Hrun.
    exists s1. apply cv_wait_woken. exact (dispatch_wakes _ _ _ _ Hlast Hrun).
  - destruct (wait_pred s) eqn:Hwait; [exists s; now apply cv_wait_woken |].
    simpl app. rewrite cv_wait_cons by exact Hwait.
    destruct (dispatch_plain_returns fuel ev s Hplain) as (s1 & Hrun & Hplain1).
    cbv beta iota delta [mbind M_bind]. rewrite Hrun.
    apply IH. exact Hplain1.
Qed.

(** In plain-text mode and with a connection, [Speak] returns at the first
    turn-end or error. *)
Lemma Speak_plain_returns fuel env pre last rest text requestId s :
  m_uspConnection (after_EnsureUspConnection env s) ≠ None →
  in_flight last = false →
  ∃ r s', Speak fuel env (pre ++ last :: rest) text false requestId s = Ok r s'.
Proof.
  intros Hconn Hlast. rewrite Speak_run. cbv zeta.
  rewrite m_uspConnection_request_sent.
  destruct (m_uspConnection (after_EnsureUspConnection env s)) eqn:Hc; [| done].
  destruct (cv_wait_plain_returns fuel pre last rest
              (request_sent env text false requestId s)) as [s' Hrun]; [| exact Hlast |].
  - unfold request_sent. rewrite Hc. reflexivity.
  - rewrite Hrun. eauto.
Qed.

(** C5. An error event that arrives while the state is [Sending] or
    [Receiving] moves the state to [Error], leaves the received audio as
    it is, stores the error code, and stores as detail text the message
    followed by the state at that moment and by the number of bytes
    received so far. From the resulting state the next [Speak] reaches
    [Sending], whatever the connection does. *)
Theorem OnError_while_in_flight
    (transport : bool) (errorCode : USP.ErrorCode) (errorMessage : string) (s : Adapter)
    (Hstate : m_uspState s = UspState.Sending ∨ m_uspState s = UspState.Receiving) :
  ∃ s',
    OnError transport errorCode errorMessage s = Ok tt s'
    ∧ m_uspState s' = UspState.Error
    ∧ m_currentReceivedData s' = m_currentReceivedData s
    ∧ m_currentErrorCode s' = errorCode
    ∧ m_currentErrorMessage s'
      = (errorMessage +:+ ((". USP state: " +:+ itos (UspState_int (m_uspState s))) +:+ "."))
          +:+ ((" Received audio size: "
                  +:+ itos (Z.of_nat (length (m_currentReceivedData s)))) +:+ "bytes.")
    ∧ trace s' = trace s ++ [cv_notify_all]
    ∧ ∀ env text isSsml requestId,
        ∃ s'', Speak_send env text isSsml requestId s' = Ok tt s''
               ∧ m_uspState s'' = UspState.Sending.
Proof.
  exists (after_OnError errorCode errorMessage s).
  repeat split.
  intros env text isSsml requestId. eexists. split; [apply Speak_send_run |].
  apply m_uspState_request_sent.
Qed.

(** C3. When [Speak] returns after a turn-start, chunks and metadata, and
    a turn-end, the result is a completed one and its audio is the
    concatenation of the chunk payloads between the turn-start and the
    turn-end, in arrival order; the empty payloads can be left out. *)
Theorem Speak_audio_is_concatenation
    (fuel : nat) (env : Env) (pre mids rest : list Event)
    (text : string) (isSsml : bool) (requestId : wstring)
    (s : Adapter) (r : SynthesisResult) (s' : Adapter)
    (Hpre : Forall in_flight pre)
    (Hmids : Forall streaming mids)
    (Hrun : Speak fuel env (pre ++ TurnStartMsg :: mids ++ TurnEndMsg :: rest)
              text isSsml requestId s = Ok r s') :
  reason r = SynthesizingAudioCompleted
  ∧ m_uspState s' = UspState.Idle
  ∧ audio r = mjoin (payload <$> mids)
  ∧ audio r = mjoin (filter (λ buffer, 0 < length buffer)%nat (payload <$> mids)).
Proof.
  apply Speak_Ok in Hrun as [Hwait ->].
  replace (pre ++ TurnStartMsg :: mids ++ TurnEndMsg :: rest)
    with ((pre ++ TurnStartMsg :: mids) ++ TurnEndMsg :: rest) in Hwait
    by (rewrite <- app_assoc; reflexivity).
  assert (Hflight : Forall in_flight (pre ++ TurnStartMsg :: mids)).
  { apply Forall_app. split; [exact Hpre |].
    apply Forall_cons. split; [done | now apply streaming_in_flight]. }
  apply cv_wait_in_flight in Hwait as (s1 & Hdeliver & Hwait1 & Hend);
    [| exact Hflight | apply wait_pred_request_sent].
  apply deliver_in_flight in Hdeliver as (Hdata & _); [| exact Hflight].
  rewrite foldl_app in Hdata. simpl in Hdata.
  rewrite foldl_received1_streaming in Hdata by exact Hmids. simpl in Hdata.
  rewrite cv_wait_cons in Hend by exact Hwait1.
  cbv beta iota delta [mbind M_bind dispatch] in Hend. rewrite OnTurnEnd_run in Hend.
  rewrite cv_wait_woken in Hend by (rewrite wait_pred_state; reflexivity).
  injection Hend as <-.
  unfold synthesis_result. simpl. rewrite Hdata.
  split; [reflexivity |]. split; [reflexivity |]. split; [reflexivity |].
  apply mjoin_nonempty.
Qed.

(** A C string read off the front of a concatenation. *)
Lemma string_data_app_cut (a b : string) :
  string_data a ≠ a → string_data (a +:+ b) = string_data a.
Proof.
  induction a as [| c a IH]; [done |].
  change (String c a +:+ b) with (String c (a +:+ b)). simpl.
  destruct (Ascii.eqb c "000"); [done |].
  intros Hcut. f_equal. apply IH. intros Heq. apply Hcut. now rewrite Heq.
Qed.

Lemma string_data_app_cut_ne (a b : string) :
  string_data a ≠ a → string_data (a +:+ b) ≠ a +:+ b.
Proof.
  induction a as [| c a IH]; [done |].
  change (String c a +:+ b) with (String c (a +:+ b)). simpl.
  destruct (Ascii.eqb c "000"); [done |].
  intros Hcut [= Heq]. apply IH; [| exact Heq]. intros Ha. apply Hcut. now rewrite Ha.
Qed.

Lemma string_data_app (a b : string) :
  string_data a = a → string_data b = b → string_data (a +:+ b) = a +:+ b.
Proof.
  intros Ha Hb. induction a as [| c a IH]; [exact Hb |].
  change (String c a +:+ b) with (String c (a +:+ b)). simpl in *.
  destruct (Ascii.eqb c "000"); [discriminate Ha |].
  injection Ha as Ha. f_equal. now apply IH.
Qed.

(** C10. When [Speak] returns in the [Error] state, the result is a
    canceled one and carries no audio byte. The wait was ended by an
    error event; the bytes received before it stay in
    [m_currentReceivedData], and their count ends the error message the
    adapter keeps. The detail text of the result is that message read as
    a C string: the whole message, ending with the count, when neither
    the message of the event nor the two numbers rendered into it hold a
    NUL; the message of the event up to its first NUL, without the count,
    when it holds one. *)
Theorem Speak_canceled_result_has_no_audio
    (fuel : nat) (env : Env) (events : list Event)
    (text : string) (isSsml : bool) (requestId : wstring)
    (s : Adapter) (r : SynthesisResult) (s' : Adapter)
    (Hrun : Speak fuel env events text isSsml requestId s = Ok r s')
    (Herror : m_uspState s' = UspState.Error) :
  reason r = Canceled
  ∧ audio r = []
  ∧ errorCode r = UspErrorCodeToCancellationErrorCode (m_currentErrorCode s')
  ∧ ReasonDetailedText r = Some (string_data (m_currentErrorMessage s'))
  ∧ ∃ pre transport code message rest state,
      events = pre ++ ErrorMsg transport code message :: rest
      ∧ Forall in_flight pre
      ∧ m_currentErrorCode s' = code
      ∧ m_currentReceivedData s' = foldl received1 (m_currentReceivedData s) pre
      ∧ m_currentErrorMessage s'
        = (message +:+ ((". USP state: " +:+ itos (UspState_int state)) +:+ "."))
            +:+ ((" Received audio size: "
                    +:+ itos (Z.of_nat (length (m_currentReceivedData s')))) +:+ "bytes.")
      ∧ (string_data message = message →
         string_data (itos (UspState_int state)) = itos (UspState_int state) →
         string_data (itos (Z.of_nat (length (m_currentReceivedData s'))))
         = itos (Z.of_nat (length (m_currentReceivedData s'))) →
         ReasonDetailedText r = Some (m_currentErrorMessage s'))
      ∧ (string_data message ≠ message →
         ReasonDetailedText r = Some (string_data message)).
Proof.
  apply Speak_Ok in Hrun as [Hwait ->].
  unfold synthesis_result. rewrite Herror. simpl.
  split; [reflexivity |]. split; [reflexivity |]. split; [reflexivity |].
  split; [reflexivity |].
  apply cv_wait_Ok in Hwait as (pre & ev & rest & s1 & -> & Hpre & Hev & Hdeliver & Hlast);
    [| apply wait_pred_request_sent].
  apply deliver_in_flight in Hdeliver as (Hdata & _); [| exact Hpre].
  rewrite m_currentReceivedData_request_sent in Hdata.
  destruct ev as [| | | | transport code message]; try done.
  - simpl in Hlast. injection Hlast as <-. done.
  - simpl in Hlast. rewrite OnError_run in Hlast. injection Hlast as <-.
    exists pre, transport, code, message, rest, (m_uspState s1).
    split; [reflexivity |]. split; [exact Hpre |]. split; [reflexivity |].
    split; [exact Hdata |].
    assert (Hmessage : m_currentErrorMessage (after_OnError code message s1)
                       = error_detail message s1) by reflexivity.
    assert (Hkept : m_currentReceivedData (after_OnError code message s1)
                    = m_currentReceivedData s1) by reflexivity.
    rewrite Hmessage, Hkept. unfold error_detail.
    split; [reflexivity |]. split.
    + intros Hm Hstate Hcount. f_equal.
      repeat (apply string_data_app; try done).
    + intros Hcut. f_equal.
      rewrite string_data_app_cut by now apply string_data_app_cut_ne.
      now apply string_data_app_cut.
Qed.

(** C2. When [Speak] has to connect and the connect step throws, the
    failure is recorded by [OnError] (state [Error], code
    [ConnectionError]); [Speak] then overwrites the state with [Sending]
    and the error code with 0, sends nothing because there is no
    connection, and waits for a state [Idle] or [Error] that no event
    can bring: the call does not return. *)
Theorem Speak_connect_failure_hangs
    (fuel : nat) (env : Env) (events : list Event)
    (text : string) (isSsml : bool) (requestId : wstring) (s : Adapter)
    (Hattempt : m_uspConnection s = None ∨ IsConnected env = false
                ∨ (nine_minutes <? GetTicks (now_check env - m_lastConnectTime s)%Z) = true)
    (Hthrows : Connect env = ThrowsOther ∨ ∃ what, Connect env = ThrowsException what) :
  (∃ s1, EnsureUspConnection env s = Ok tt s1
         ∧ m_uspState s1 = UspState.Error
         ∧ m_currentErrorCode s1 = USP.ConnectionError
         ∧ m_uspConnection s1 = None)
  ∧ ∃ s',
      Speak fuel env events text isSsml requestId s = Hangs s'
      ∧ m_uspState s' = UspState.Sending
      ∧ m_uspConnection s' = None
      ∧ m_currentErrorCode s' = USP.Unnamed 0
      ∧ m_currentErrorMessage s' = "".
Proof.
  assert (Hensure : ∃ s0, m_uspConnection s0 = None
                          ∧ after_EnsureUspConnection env s = after_UspInitialize env s0).
  { unfold after_EnsureUspConnection.
    replace reconnect_after_ticks with nine_minutes by (vm_compute; reflexivity).
    destruct (m_uspConnection s) as [c |] eqn:Hconn.
    - exists (after_UspTerminate s). split; [apply m_uspConnection_after_UspTerminate |].
      destruct Hattempt as [Hnone | [Hdisc | Hold]]; [done | |].
      + now rewrite Hdisc.
      + rewrite Hold. now rewrite orb_true_r.
    - exists s. done. }
  destruct Hensure as (s0 & Hnull & Hensure).
  assert (Hfailed : m_uspState (after_EnsureUspConnection env s) = UspState.Error
                    ∧ m_currentErrorCode (after_EnsureUspConnection env s)
                      = USP.ConnectionError
                    ∧ m_uspConnection (after_EnsureUspConnection env s) = None).
  { rewrite Hensure. unfold after_UspInitialize.
    destruct Hthrows as [-> | [what ->]]; repeat split; exact Hnull. }
  destruct Hfailed as (Hstate & Hcode & Hconn).
  split.
  { exists (after_EnsureUspConnection env s).
    split; [apply EnsureUspConnection_run | done]. }
  exists (request_sent env text isSsml requestId s).
  rewrite Speak_run. cbv zeta.
  rewrite m_uspConnection_request_sent, Hconn. simpl.
  rewrite wait_pred_request_sent.
  split; [reflexivity |]. split; [apply m_uspState_request_sent |].
  split; [reflexivity |].
  unfold request_sent. rewrite Hconn. split; reflexivity.
Qed.

End Speak.

(** ** The theorems on concrete runs *)

Lemma OnError_while_in_flight_witness :
  ∃ s',
    OnError false USP.ServiceError "boom"
      (set_m_currentReceivedData ["001"%byte; "002"%byte] (Demo.receiving "hi" false))
    = Ok tt s'
    ∧ m_uspState s' = UspState.Error
    ∧ m_currentReceivedData s' = ["001"%byte; "002"%byte]
    ∧ m_currentErrorMessage s' = "boom. USP state: 2. Received audio size: 2bytes.".
Proof.
  destruct (OnError_while_in_flight false USP.ServiceError "boom"
              (set_m_currentReceivedData ["001"%byte; "002"%byte] (Demo.receiving "hi" false))
              (or_intror eq_refl))
    as (s' & Hrun & Hstate & Hdata & _ & Hmessage & _).
  exists s'. split; [exact Hrun |]. split; [exact Hstate |].
  split; [exact Hdata | exact Hmessage].
Defined.

Lemma Speak_audio_is_concatenation_witness :
  ∃ r s',
    Speak 0 Demo.env
      ([] ++ TurnStartMsg
          :: [AudioOutputChunkMsg ["001"%byte; "002"%byte];
              AudioOutputMetadataMsg [Demo.word "hi"];
              AudioOutputChunkMsg [];
              AudioOutputChunkMsg ["003"%byte]]
          ++ TurnEndMsg :: [])
      "hi" false [] Demo.adapter = Ok r s'
    ∧ audio r = ["001"%byte; "002"%byte; "003"%byte].
Proof.
  destruct (Speak 0 Demo.env _ "hi" false [] Demo.adapter) as [r s' | e s' | s'] eqn:Hrun.
  - exists r, s'. split; [reflexivity |].
    apply Speak_audio_is_concatenation in Hrun as (_ & _ & Haudio & _).
    + exact Haudio.
    + constructor.
    + repeat constructor.
  - vm_compute in Hrun. discriminate Hrun.
  - vm_compute in Hrun. discriminate Hrun.
Defined.

Lemma Speak_canceled_result_has_no_audio_witness :
  ∃ r s',
    Speak 0 Demo.env
      [TurnStartMsg; AudioOutputChunkMsg ["001"%byte; "002"%byte];
       ErrorMsg false USP.ServiceError "boom"]
      "hi" false [] Demo.adapter = Ok r s'
    ∧ m_uspState s' = UspState.Error
    ∧ m_currentReceivedData s' = ["001"%byte; "002"%byte]
    ∧ reason r = Canceled
    ∧ audio r = []
    ∧ ReasonDetailedText r = Some "boom. USP state: 2. Received audio size: 2bytes.".
Proof.
  destruct (Speak 0 Demo.env _ "hi" false [] Demo.adapter) as [r s' | e s' | s'] eqn:Hrun.
  - assert (Herror : m_uspState s' = UspState.Error)
      by (vm_compute in Hrun; injection Hrun as _ <-; reflexivity).
    assert (Hdata : m_currentReceivedData s' = ["001"%byte; "002"%byte])
      by (vm_compute in Hrun; injection Hrun as _ <-; reflexivity).
    assert (Hmessage : m_currentErrorMessage s'
                       = "boom. USP state: 2. Received audio size: 2bytes.")
      by (vm_compute in Hrun; injection Hrun as _ <-; reflexivity).
    destruct (Speak_canceled_result_has_no_audio _ _ _ _ _ _ _ _ _ Hrun Herror)
      as (Hreason & Haudio & _ & Hdetail & _).
    exists r, s'. rewrite Hmessage in Hdetail. repeat split; assumption.
  - vm_compute in Hrun. discriminate Hrun.
  - vm_compute in Hrun. discriminate Hrun.
Defined.

(** The error message "a", NUL, "b": two bytes are retained, and the
    detail text of the canceled result is "a", without their count. *)
Lemma Speak_canceled_result_has_no_audio_counterexample :
  ∃ r s',
    Speak 0 Demo.env
      [TurnStartMsg; AudioOutputChunkMsg ["001"%byte; "002"%byte];
       ErrorMsg false USP.ServiceError (String "a" (String "000" "b"))]
      "hi" false [] Demo.adapter = Ok r s'
    ∧ m_uspState s' = UspState.Error
    ∧ m_currentReceivedData s' = ["001"%byte; "002"%byte]
    ∧ m_currentErrorMessage s'
      = String "a" (String "000" "b. USP state: 2. Received audio size: 2bytes.")
    ∧ ReasonDetailedText r = Some "a".
Proof.
  destruct (Speak 0 Demo.env _ "hi" false [] Demo.adapter) as [r s' | e s' | s'] eqn:Hrun.
  - exists r, s'. vm_compute in Hrun. injection Hrun as <- <-. repeat split.
  - vm_compute in Hrun. discriminate Hrun.
  - vm_compute in Hrun. discriminate Hrun.
Qed.

Lemma Speak_connect_failure_hangs_witness :
  ∃ s',
    Speak 1000
      {| IsConnected := false; now_check := 0%Z;
         Connect := ThrowsException "connection refused"; now_connect := 0%Z |}
      [TurnStartMsg; TurnEndMsg] "hi" false [] Demo.adapter = Hangs s'
    ∧ m_uspState s' = UspState.Sending.
Proof.
  destruct (Speak_connect_failure_hangs 1000
              {| IsConnected := false; now_check := 0%Z;
                 Connect := ThrowsException "connection refused"; now_connect := 0%Z |}
              [TurnStartMsg; TurnEndMsg] "hi" false [] Demo.adapter
              (or_introl eq_refl) (or_intror (ex_intro _ "connection refused" eq_refl)))
    as (_ & s' & Hrun & Hstate & _).
  exists s'. split; [exact Hrun | exact Hstate].
Defined.

(** ** Further properties of the aligner *)








(** One step, with the end of the occurrence inside the text. *)
Lemma OnWordBoundary_within_text (fuel : nat) (wb : TextBoundary) (s s' : Adapter) :
  N.of_nat (length (m_currentText s)) < 2 ^ 32 →
  c_str (text wb) = text wb →
  OnWordBoundary fuel wb s = Ok tt s' →
  s' = s
  ∨ ∃ textOffset wordLength,
      s' = set_trace (trace s ++ [FireWordBoundary (audioOffset wb) textOffset wordLength])
             (set_m_currentTextOffset (textOffset + wordLength) s)
      ∧ m_currentTextOffset s ≤ textOffset
      ∧ textOffset + wordLength ≤ N.of_nat (length (m_currentText s)).
Proof.
  intros Hlen Hnul. rewrite OnWordBoundary_run, Hnul.
  destruct (find _ _ _) as [textOffset |] eqn:Hfind; [| intros [= <-]; now left].
  destruct (_ && _); [done |]. intros [= <-]. right.
  apply find_Some in Hfind as (Hle & _ & Hend).
  exists (N.of_nat textOffset), (N.of_nat (length (text wb))).
  unfold fired, next_offset.
  rewrite !(uint32_small (N.of_nat textOffset)) by lia.
  rewrite !(uint32_small (N.of_nat (length (text wb)))) by lia.
  rewrite uint32_small by lia.
  split; [reflexivity |]. lia.
Qed.

Section Boundaries.
Context `{Externals}.

(** X2. Along a run of the metadata callback that returns, the boundaries
    fired are the only calls made; they come in text order without
    overlap, the first at or after the cursor and each at or after the end
    of the one before; the cursor ends at the end of the last one and
    never passes the end of the text; no entry fires twice. *)
Theorem OnAudioOutputMetadata_boundaries_in_order
    (fuel : nat) (metadatas : list Metadata) (s s' : Adapter)
    (Hlen : N.of_nat (length (m_currentText s)) < 2 ^ 32)
    (Hcursor : m_currentTextOffset s ≤ N.of_nat (length (m_currentText s)))
    (Hwords : words_are_c_strings metadatas)
    (Hrun : OnAudioOutputMetadata fuel metadatas s = Ok tt s') :
  ∃ boundaries,
    trace s' = trace s ++ boundaries
    ∧ boundaries_from (m_currentTextOffset s) boundaries (m_currentTextOffset s')
    ∧ m_currentTextOffset s' ≤ N.of_nat (length (m_currentText s))
    ∧ (length boundaries ≤ length metadatas)%nat.
Proof.
  revert s Hlen Hcursor Hrun.
  induction Hwords as [| m metadatas Hm Hwords IH]; intros s Hlen Hcursor; simpl.
  - intros [= <-]. exists []. rewrite app_nil_r. simpl. repeat split; [exact Hcursor | lia].
  - run_M. destruct (is_word_boundary (type m)).
    + destruct (OnWordBoundary fuel (textBoundary m) s) as [[] s1 | |] eqn:Hstep; try done.
      intros Hrest.
      destruct (OnWordBoundary_within_text _ _ _ _ Hlen Hm Hstep)
        as [-> | (textOffset & wordLength & -> & Hle & Hend)].
      * destruct (IH s Hlen Hcursor Hrest) as (bs & Htrace & Hfrom & Hlast & Hcount).
        exists bs. repeat split; [exact Htrace | exact Hfrom | exact Hlast | lia].
      * apply IH in Hrest as (bs & Htrace & Hfrom & Hlast & Hcount);
          [| exact Hlen | exact Hend].
        exists (FireWordBoundary (audioOffset (textBoundary m)) textOffset wordLength :: bs).
        simpl in Htrace, Hfrom, Hlast. rewrite <- app_assoc in Htrace.
        repeat split; [exact Htrace | exact Hle | exact Hfrom | exact Hlast | simpl; lia].
    + intros Hrest.
      destruct (IH s Hlen Hcursor Hrest) as (bs & Htrace & Hfrom & Hlast & Hcount).
      exists bs. repeat split; [exact Htrace | exact Hfrom | exact Hlast | lia].
Qed.

(** X3. Entries of another type than word boundary have no effect, wherever
    they stand in the message: the callback does what it does on the
    word-boundary entries alone. *)
Theorem OnAudioOutputMetadata_other_types_ignored
    (fuel : nat) (metadatas : list Metadata) (s : Adapter) :
  OnAudioOutputMetadata fuel metadatas s
  = OnAudioOutputMetadata fuel (filter (λ m, is_word_boundary (type m)) metadatas) s.
Proof.
  revert s. induction metadatas as [| m metadatas IH]; intros s; [reflexivity |].
  rewrite filter_cons. destruct (decide _) as [Hwb | Hwb]; simpl; run_M.
  - apply Is_true_true in Hwb. rewrite Hwb.
    destruct (OnWordBoundary fuel (textBoundary m) s) as [[] s1 | |]; try reflexivity.
    apply IH.
  - apply Is_true_false in Hwb. rewrite Hwb. apply IH.
Qed.

End Boundaries.

Lemma OnAudioOutputMetadata_boundaries_in_order_witness :
  ∃ s' boundaries,
    OnAudioOutputMetadata 0 [Demo.word "cat"; Demo.word "dog"; Demo.word "cat"]
      (Demo.receiving "cat cat" false) = Ok tt s'
    ∧ trace s' = boundaries
    ∧ boundaries_from 0 boundaries 7.
Proof.
  destruct (OnAudioOutputMetadata 0 [Demo.word "cat"; Demo.word "dog"; Demo.word "cat"]
              (Demo.receiving "cat cat" false)) as [[] s' | |] eqn:Hrun;
    [| vm_compute in Hrun; discriminate Hrun ..].
  assert (Hend : m_currentTextOffset s' = 7)
    by (vm_compute in Hrun; injection Hrun as <-; reflexivity).
  destruct (OnAudioOutputMetadata_boundaries_in_order 0
              [Demo.word "cat"; Demo.word "dog"; Demo.word "cat"]
              (Demo.receiving "cat cat" false) s')
    as (boundaries & Htrace & Hfrom & _).
  - vm_compute. reflexivity.
  - vm_compute. discriminate.
  - repeat constructor.
  - exact Hrun.
  - exists s', boundaries. rewrite Hend in Hfrom.
    split; [reflexivity |]. split; [exact Htrace | exact Hfrom].
Defined.

Lemma find_empty (str : wstring) (pos : nat) :
  (pos ≤ length str)%nat → find str [] pos = Some pos.
Proof.
  intros Hpos. unfold find.
  destruct (pos <=? length str)%nat eqn:Hle; [| apply Nat.leb_gt in Hle; lia].
  destruct (drop pos str); reflexivity.
Qed.

Lemma InSsmlTag_scan_same (ssml : wstring) (pos : nat) :
  InSsmlTag_scan ssml pos pos = false.
Proof. destruct pos; simpl; [reflexivity |]. now rewrite Nat.ltb_irrefl. Qed.

(** X4. An empty reported word (or one that starts with a NUL) is found at
    the cursor itself whenever the cursor is inside the text or at its
    end: a boundary is fired at the cursor, in plain-text and in markup
    mode, with the full length of the reported word; for the empty word
    the cursor stays where it is. *)
Theorem OnWordBoundary_empty_word
    (fuel : nat) (wb : TextBoundary) (s : Adapter)
    (Hword : c_str (text wb) = [])
    (Hcursor : (N.to_nat (m_currentTextOffset s) ≤ length (m_currentText s))%nat) :
  OnWordBoundary fuel wb s = Ok tt (fired wb (N.to_nat (m_currentTextOffset s)) s)
  ∧ trace (fired wb (N.to_nat (m_currentTextOffset s)) s)
    = trace s ++ [FireWordBoundary (audioOffset wb) (uint32 (m_currentTextOffset s))
                    (uint32 (N.of_nat (length (text wb))))]
  ∧ (text wb = [] → m_currentTextOffset s < 2 ^ 32 →
     m_currentTextOffset (fired wb (N.to_nat (m_currentTextOffset s)) s)
     = m_currentTextOffset s).
Proof.
  rewrite OnWordBoundary_run, Hword, find_empty by exact Hcursor.
  unfold InSsmlTag. rewrite InSsmlTag_scan_same.
  split.
  { destruct (m_currentTextIsSsml s); simpl; [| reflexivity].
    destruct (_ || _); reflexivity. }
  unfold fired, next_offset. simpl. rewrite N2Nat.id.
  split; [reflexivity |].
  intros -> Hsmall. simpl. rewrite (uint32_small _ Hsmall).
  change (uint32 0) with 0. rewrite N.add_0_r. exact (uint32_small _ Hsmall).
Qed.

Lemma OnWordBoundary_empty_word_witness :
  OnWordBoundary 0 (textBoundary (Demo.word ""))
    (set_m_currentTextOffset 3 (Demo.receiving "<a/> b" true))
  = Ok tt (fired (textBoundary (Demo.word "")) 3
             (set_m_currentTextOffset 3 (Demo.receiving "<a/> b" true))).
Proof.
  refine (proj1 (OnWordBoundary_empty_word 0 (textBoundary (Demo.word ""))
                   (set_m_currentTextOffset 3 (Demo.receiving "<a/> b" true)) _ _)).
  - reflexivity.
  - vm_compute. lia.
Defined.

Lemma InSsmlTag_scan_true (ssml : wstring) (beginningPos pos : nat) :
  InSsmlTag_scan ssml beginningPos pos = true ↔
  ∃ p, (beginningPos < p ≤ pos)%nat
       ∧ default 0 (ssml !! p) = chr_lt
       ∧ ∀ q, (p < q ≤ pos)%nat → default 0 (ssml !! q) ≠ chr_gt.
Proof.
  induction pos as [| pos IH]; simpl.
  - split; [done |]. intros (p & Hp & _). lia.
  - destruct (beginningPos <? S pos)%nat eqn:Hlt.
    + apply Nat.ltb_lt in Hlt.
      destruct (default 0 (ssml !! S pos) =? chr_gt) eqn:Hgt.
      * apply N.eqb_eq in Hgt. split; [done |]. intros (p & Hp & Hopen & Hclose).
        destruct (decide (p = S pos)) as [-> | Hne].
        -- rewrite Hgt in Hopen. discriminate Hopen.
        -- exfalso. apply (Hclose (S pos)); [lia | exact Hgt].
      * apply N.eqb_neq in Hgt.
        destruct (default 0 (ssml !! S pos) =? chr_lt) eqn:Hopen.
        -- apply N.eqb_eq in Hopen. split; [intros _ | done].
           exists (S pos). split; [lia |]. split; [exact Hopen |]. intros q Hq. lia.
        -- apply N.eqb_neq in Hopen. rewrite IH. split.
           ++ intros (p & Hp & Hp_open & Hclose). exists p.
              split; [lia |]. split; [exact Hp_open |]. intros q Hq.
              destruct (decide (q = S pos)) as [-> | Hne]; [exact Hgt |].
              apply Hclose. lia.
           ++ intros (p & Hp & Hp_open & Hclose).
              assert (p ≠ S pos) by (intros ->; done).
              exists p. split; [lia |]. split; [exact Hp_open |].
              intros q Hq. apply Hclose. lia.
    + apply Nat.ltb_ge in Hlt. split; [done |]. intros (p & Hp & _). lia.
Qed.

(** X5. [InSsmlTag] answers true exactly when the position is inside the
    text and some character strictly after [beginningPos] and at or before
    [currentPos] is a ['<'] with no ['>'] between it and [currentPos]
    (both included). In particular the answer is false when [currentPos]
    is outside the text or not after [beginningPos]. *)
Theorem InSsmlTag_true_iff (currentPos : nat) (ssml : wstring) (beginningPos : nat) :
  InSsmlTag currentPos ssml beginningPos = true ↔
  (currentPos < length ssml)%nat
  ∧ ∃ p, (beginningPos < p ≤ currentPos)%nat
         ∧ ssml !! p = Some chr_lt
         ∧ ∀ q, (p < q ≤ currentPos)%nat → ssml !! q ≠ Some chr_gt.
Proof.
  assert (Hchar : ∀ (p : nat) (c : wchar_t), (p < length ssml)%nat → c ≠ 0 →
                  (default 0 (ssml !! p) = c ↔ ssml !! p = Some c)).
  { intros p c Hp Hc. unfold wchar_t in *.
    destruct (ssml !! p) as [x |] eqn:Hx; [| apply lookup_ge_None in Hx; lia].
    simpl. split; intros Heq; congruence. }
  unfold InSsmlTag.
  destruct (currentPos <? beginningPos)%nat eqn:H1; simpl.
  { apply Nat.ltb_lt in H1. split; [done |]. intros (_ & p & Hp & _). lia. }
  apply Nat.ltb_ge in H1.
  destruct (length ssml <=? currentPos)%nat eqn:H2; simpl.
  { apply Nat.leb_le in H2. split; [done |]. intros (Hin & _). lia. }
  apply Nat.leb_gt in H2.
  destruct (length ssml <=? beginningPos)%nat eqn:H3.
  { apply Nat.leb_le in H3. lia. }
  rewrite InSsmlTag_scan_true. split.
  - intros (p & Hp & Hopen & Hclose). split; [exact H2 |]. exists p.
    split; [exact Hp |]. split; [apply Hchar; [lia | done | exact Hopen] |].
    intros q Hq Hq_close. apply (Hclose q Hq). apply Hchar; [lia | done | exact Hq_close].
  - intros (_ & p & Hp & Hopen & Hclose). exists p.
    split; [exact Hp |]. split; [apply Hchar; [lia | done | exact Hopen] |].
    intros q Hq Hq_close. apply (Hclose q Hq). apply Hchar; [lia | done | exact Hq_close].
Qed.

(** ** Further properties of the response assembler *)

Section Assembler.
Context `{Externals}.

(** What a metadata callback that returns has done. *)
Lemma OnAudioOutputMetadata_effects (fuel : nat) (metadatas : list Metadata) (s s' : Adapter) :
  OnAudioOutputMetadata fuel metadatas s = Ok tt s' →
  ∃ effects offset,
    s' = set_trace (trace s ++ effects) (set_m_currentTextOffset offset s)
    ∧ site_written effects = [] ∧ sent_messages effects = []
    ∧ Forall (site_write_for (m_currentRequestId s)) effects.
Proof.
  revert s. induction metadatas as [| m metadatas IH]; intros s; simpl.
  - intros [= <-]. exists [], (m_currentTextOffset s).
    rewrite app_nil_r. split; [now destruct s |]. repeat split. constructor.
  - run_M. destruct (is_word_boundary (type m)).
    + rewrite OnWordBoundary_run.
      destruct (find _ _ _) as [textOffset |].
      * destruct (_ && _); [done |].
        intros (effects & offset & -> & Hsite & Hsent & Hfor)%IH.
        eexists (_ :: effects), offset. unfold fired. simpl.
        rewrite <- app_assoc. split; [reflexivity |].
        split; [exact Hsite |]. split; [exact Hsent |].
        constructor; [exact I | exact Hfor].
      * apply IH.
    + apply IH.
Qed.

(** What a callback that returns has done, for every kind of event. *)
Lemma dispatch_Ok (fuel : nat) (ev : Event) (s s' : Adapter) :
  dispatch fuel ev s = Ok tt s' →
  m_currentReceivedData s' = received1 (m_currentReceivedData s) ev
  ∧ same_connection s s'.
Proof.
  destruct ev as [| audioBuffer | metadatas | | transport code message]; simpl.
  - intros [= <-]. done.
  - unfold OnAudioOutputChunk. run_M.
    destruct (0 <? length audioBuffer)%nat; intros [= <-]; done.
  - intros (effects & offset & -> & _)%OnAudioOutputMetadata_effects. done.
  - intros [= <-]. done.
  - rewrite OnError_run. intros [= <-]. done.
Qed.

(** The calls a callback that returns has made. *)
Lemma dispatch_effects (fuel : nat) (ev : Event) (s s' : Adapter) :
  fits_uint32 ev →
  dispatch fuel ev s = Ok tt s' →
  ∃ effects,
    trace s' = trace s ++ effects
    ∧ site_written effects = payload ev
    ∧ sent_messages effects = []
    ∧ Forall (site_write_for (m_currentRequestId s)) effects.
Proof.
  destruct ev as [| audioBuffer | metadatas | | transport code message]; simpl; intros Hfits.
  - intros [= <-]. exists []. rewrite app_nil_r. repeat split. constructor.
  - unfold OnAudioOutputChunk. run_M.
    destruct (0 <? length audioBuffer)%nat eqn:Hlen; intros [= <-].
    + exists [Site_Write (m_currentRequestId s) audioBuffer
                (uint32 (N.of_nat (length audioBuffer)))].
      rewrite (uint32_small _ Hfits).
      split; [reflexivity |]. split.
      { unfold site_written. simpl. rewrite Nat2N.id, firstn_all. apply app_nil_r. }
      split; [reflexivity |].
      constructor; [| constructor]. split; [reflexivity |]. split; [| reflexivity].
      intros ->. simpl in Hlen. discriminate Hlen.
    + exists []. rewrite app_nil_r. split; [reflexivity |].
      apply Nat.ltb_ge in Hlen. destruct audioBuffer; [| simpl in Hlen; lia].
      repeat split. constructor.
  - intros (effects & offset & -> & Hsite & Hsent & Hfor)%OnAudioOutputMetadata_effects.
    exists effects. done.
  - intros [= <-]. exists [cv_notify_all]. repeat split.
    constructor; [exact I | constructor].
  - rewrite OnError_run. intros [= <-]. exists [cv_notify_all].
    repeat split. constructor; [exact I | constructor].
Qed.

Lemma deliver_Ok (fuel : nat) (events : list Event) (s s' : Adapter) :
  deliver fuel events s = Ok tt s' →
  m_currentReceivedData s' = foldl received1 (m_currentReceivedData s) events
  ∧ same_connection s s'.
Proof.
  revert s. induction events as [| ev events IH]; intros s; simpl.
  - intros [= <-]. done.
  - run_M. destruct (dispatch fuel ev s) as [[] s1 | |] eqn:Hev; try done.
    apply dispatch_Ok in Hev as (Hdata1 & Hc1).
    intros (Hdata2 & Hc2)%IH.
    destruct Hc1 as (Hc1a & Hc1b & Hc1c & Hc1d & Hc1e & Hc1f).
    destruct Hc2 as (Hc2a & Hc2b & Hc2c & Hc2d & Hc2e & Hc2f).
    split.
    + rewrite Hdata2, Hdata1. reflexivity.
    + unfold same_connection. rewrite Hc2a, Hc2b, Hc2c, Hc2d, Hc2e, Hc2f. done.
Qed.

Lemma deliver_effects (fuel : nat) (events : list Event) (s s' : Adapter) :
  Forall fits_uint32 events →
  deliver fuel events s = Ok tt s' →
  ∃ effects,
    trace s' = trace s ++ effects
    ∧ site_written effects = mjoin (payload <$> events)
    ∧ sent_messages effects = []
    ∧ Forall (site_write_for (m_currentRequestId s)) effects.
Proof.
  intros Hfits. revert s.
  induction Hfits as [| ev events Hfit Hfits IH]; intros s; simpl.
  - intros [= <-]. exists []. rewrite app_nil_r. repeat split. constructor.
  - run_M. destruct (dispatch fuel ev s) as [[] s1 | |] eqn:Hev; try done.
    apply dispatch_Ok in Hev as Hsame. destruct Hsame as (_ & _ & _ & _ & _ & _ & Hid).
    apply dispatch_effects in Hev as (e1 & Htr1 & Hsite1 & Hsent1 & Hfor1); [| exact Hfit].
    intros (e2 & Htr2 & Hsite2 & Hsent2 & Hfor2)%IH.
    exists (e1 ++ e2). rewrite Htr2, Htr1, <- app_assoc. split; [reflexivity |].
    unfold site_written, sent_messages in *.
    rewrite fmap_app, join_app, filter_app, Hsite1, Hsite2, Hsent1, Hsent2.
    repeat split. apply Forall_app. split; [exact Hfor1 |].
    rewrite <- Hid. exact Hfor2.
Qed.

Lemma foldl_received1_no_turn_start (events : list Event) (data : list byte) :
  Forall (λ ev, ev ≠ TurnStartMsg) events →
  foldl received1 data events = data ++ mjoin (payload <$> events).
Proof.
  intros Hno. revert data. induction Hno as [| ev events Hev Hno IH]; intros data; simpl.
  - now rewrite app_nil_r.
  - rewrite IH. destruct ev; simpl; try done; [now rewrite app_assoc].
Qed.

(** X6. Only the turn-start callback clears the received audio. Whatever
    callbacks run, in whatever state, as long as no turn-start is among
    them the bytes received before remain, followed by the payloads of the
    chunks in arrival order; turn-end and error events add and remove
    nothing. *)
Theorem received_audio_is_only_appended_to
    (fuel : nat) (events : list Event) (s s' : Adapter)
    (Hevents : Forall (λ ev, ev ≠ TurnStartMsg) events)
    (Hrun : deliver fuel events s = Ok tt s') :
  m_currentReceivedData s' = m_currentReceivedData s ++ mjoin (payload <$> events).
Proof.
  apply deliver_Ok in Hrun as (Hdata & _).
  rewrite Hdata. now apply foldl_received1_no_turn_start.
Qed.

(** X7. The site is handed exactly the audio that arrives, as long as
    every chunk is shorter than 2^32 bytes, the range of the 32-bit size
    passed to [Write]: along any sequence of callbacks the bytes passed to
    [Write], concatenated in call order, are the chunk payloads in arrival
    order; every [Write] carries the identifier of the current request and
    the whole of a buffer that is not empty; no message is sent over the
    connection. *)
Theorem site_is_written_the_chunks
    (fuel : nat) (events : list Event) (s s' : Adapter)
    (Hsizes : Forall fits_uint32 events)
    (Hrun : deliver fuel events s = Ok tt s') :
  ∃ effects,
    trace s' = trace s ++ effects
    ∧ site_written effects = mjoin (payload <$> events)
    ∧ sent_messages effects = []
    ∧ Forall (site_write_for (m_currentRequestId s)) effects.
Proof. exact (deliver_effects fuel events s s' Hsizes Hrun). Qed.

End Assembler.

Lemma received_audio_is_only_appended_to_witness :
  ∃ s',
    deliver 0 [AudioOutputChunkMsg ["003"%byte]; TurnEndMsg; AudioOutputChunkMsg [];
               ErrorMsg true USP.ServiceError "late"; AudioOutputChunkMsg ["004"%byte]]
      (set_m_currentReceivedData ["001"%byte; "002"%byte] (Demo.receiving "hi" false))
    = Ok tt s'
    ∧ m_currentReceivedData s' = ["001"%byte; "002"%byte; "003"%byte; "004"%byte].
Proof.
  destruct (deliver 0 _ (set_m_currentReceivedData _ (Demo.receiving "hi" false)))
    as [[] s' | |] eqn:Hrun; [| vm_compute in Hrun; discriminate Hrun ..].
  exists s'. split; [reflexivity |].
  assert (Hevents : Forall (λ ev, ev ≠ TurnStartMsg)
                      [AudioOutputChunkMsg ["003"%byte]; TurnEndMsg; AudioOutputChunkMsg [];
                       ErrorMsg true USP.ServiceError "late";
                       AudioOutputChunkMsg ["004"%byte]])
    by (repeat constructor; discriminate).
  rewrite (received_audio_is_only_appended_to _ _ _ _ Hevents Hrun).
  reflexivity.
Defined.

Lemma site_is_written_the_chunks_witness :
  ∃ s' effects,
    deliver 0 [TurnStartMsg; AudioOutputChunkMsg ["001"%byte]; AudioOutputChunkMsg [];
               AudioOutputChunkMsg ["002"%byte; "003"%byte]; TurnEndMsg]
      (Demo.receiving "hi" false) = Ok tt s'
    ∧ trace s' = effects
    ∧ site_written effects = ["001"%byte; "002"%byte; "003"%byte].
Proof.
  destruct (deliver 0 [TurnStartMsg; AudioOutputChunkMsg ["001"%byte]; AudioOutputChunkMsg [];
                       AudioOutputChunkMsg ["002"%byte; "003"%byte]; TurnEndMsg]
              (Demo.receiving "hi" false)) as [[] s' | |] eqn:Hrun;
    [| vm_compute in Hrun; discriminate Hrun ..].
  assert (Hsizes : Forall fits_uint32
                     [TurnStartMsg; AudioOutputChunkMsg ["001"%byte]; AudioOutputChunkMsg [];
                      AudioOutputChunkMsg ["002"%byte; "003"%byte]; TurnEndMsg])
    by (repeat constructor).
  destruct (site_is_written_the_chunks _ _ _ _ Hsizes Hrun)
    as (effects & Htrace & Hsite & _).
  exists s', effects. split; [reflexivity |]. split; [exact Htrace | exact Hsite].
Defined.

(** ** Further properties of the session *)

Lemma same_connection_refl (s : Adapter) : same_connection s s.
Proof. done. Qed.

Lemma same_connection_trans (s1 s2 s3 : Adapter) :
  same_connection s1 s2 → same_connection s2 s3 → same_connection s1 s3.
Proof.
  intros (Ha & Hb & Hc & Hd & He & Hf) (Ha' & Hb' & Hc' & Hd' & He' & Hf').
  unfold same_connection. rewrite Ha', Hb', Hc', Hd', He', Hf'. done.
Qed.

Section Requests.
Context `{Externals}.

(** The wait leaves the connection, the property bag and the output as
    they are. *)
Lemma cv_wait_same_connection fuel events s s' :
  cv_wait fuel events s = Ok tt s' → same_connection s s'.
Proof.
  revert s. induction events as [| ev events IH]; intros s; simpl.
  - destruct (wait_pred s); [| done]. intros [= <-]. apply same_connection_refl.
  - destruct (wait_pred s); [intros [= <-]; apply same_connection_refl |].
    run_M. destruct (dispatch fuel ev s) as [[] s1 | |] eqn:Hev; try done.
    apply dispatch_Ok in Hev as (_ & Hsame). intros Hrest%IH.
    exact (same_connection_trans _ _ _ Hsame Hrest).
Qed.

Lemma same_connection_request_sent env text isSsml requestId s :
  m_uspConnection (request_sent env text isSsml requestId s)
  = m_uspConnection (after_EnsureUspConnection env s)
  ∧ m_lastConnectTime (request_sent env text isSsml requestId s)
    = m_lastConnectTime (after_EnsureUspConnection env s)
  ∧ properties (request_sent env text isSsml requestId s)
    = properties (after_EnsureUspConnection env s)
  ∧ m_audioOutput (request_sent env text isSsml requestId s)
    = m_audioOutput (after_EnsureUspConnection env s).
Proof.
  unfold request_sent.
  destruct (m_uspConnection (after_EnsureUspConnection env s)) eqn:Hconn; simpl;
    rewrite ?Hconn; done.
Qed.

(** X8. [Speak] does not clear the received audio itself. When the turn-end
    arrives with no turn-start before it, the completed result carries the
    bytes that were left in [m_currentReceivedData] before the call,
    followed by the payloads of the chunks of this call. *)
Theorem Speak_without_turn_start_keeps_earlier_audio
    (fuel : nat) (env : Env) (mids rest : list Event)
    (text : string) (isSsml : bool) (requestId : wstring)
    (s : Adapter) (r : SynthesisResult) (s' : Adapter)
    (Hmids : Forall streaming mids)
    (Hrun : Speak fuel env (mids ++ TurnEndMsg :: rest) text isSsml requestId s = Ok r s') :
  reason r = SynthesizingAudioCompleted
  ∧ audio r = m_currentReceivedData s ++ mjoin (payload <$> mids).
Proof.
  apply Speak_Ok in Hrun as [Hwait ->].
  apply cv_wait_in_flight in Hwait as (s1 & Hdeliver & Hwait1 & Hend);
    [| now apply streaming_in_flight | apply wait_pred_request_sent].
  apply deliver_in_flight in Hdeliver as (Hdata & _); [| now apply streaming_in_flight].
  rewrite foldl_received1_streaming, m_currentReceivedData_request_sent in Hdata
    by exact Hmids.
  rewrite cv_wait_cons in Hend by exact Hwait1.
  cbv beta iota delta [mbind M_bind dispatch] in Hend. rewrite OnTurnEnd_run in Hend.
  rewrite cv_wait_woken in Hend by (rewrite wait_pred_state; reflexivity).
  injection Hend as <-.
  unfold synthesis_result. simpl. rewrite Hdata. split; reflexivity.
Qed.

Lemma OnAudioOutputMetadata_not_Thrown fuel metadatas s e s' :
  OnAudioOutputMetadata fuel metadatas s ≠ Thrown e s'.
Proof.
  revert s. induction metadatas as [| m metadatas IH]; intros s; simpl; [done |].
  run_M. destruct (is_word_boundary (type m)); [| apply IH].
  rewrite OnWordBoundary_run.
  destruct (find _ _ _); [destruct (_ && _); [done |] |]; apply IH.
Qed.

Lemma cv_wait_not_Thrown fuel events s e s' :
  cv_wait fuel events s ≠ Thrown e s'.
Proof.
  revert s. induction events as [| ev events IH]; intros s; simpl.
  - destruct (wait_pred s); done.
  - destruct (wait_pred s); [done |]. run_M.
    destruct (dispatch fuel ev s) as [[] s1 | e1 s1 | s1] eqn:Hev; [apply IH | | done].
    destruct ev; simpl in Hev; try done.
    + unfold OnAudioOutputChunk in Hev. revert Hev. run_M.
      destruct (0 <? length audioBuffer)%nat; done.
    + now apply OnAudioOutputMetadata_not_Thrown in Hev.
Qed.

(** X9. The guard of [UspInitialize] is never triggered by its callers.
    Called with a connection held, [UspInitialize] throws
    [SPXERR_ALREADY_INITIALIZED] and leaves the adapter as it was; called
    without one it returns. [EnsureUspConnection] releases a connection
    it replaces before it calls [UspInitialize], so it returns in every
    state, and [Speak] never ends with that exception. *)
Theorem UspInitialize_guard_not_reached (env : Env) (s : Adapter) :
  match m_uspConnection s with
  | Some _ => UspInitialize env s = Thrown SPXERR_ALREADY_INITIALIZED s
  | None => ∃ s1, UspInitialize env s = Ok tt s1
  end
  ∧ (∃ s1, EnsureUspConnection env s = Ok tt s1)
  ∧ ∀ fuel events text isSsml requestId s',
      Speak fuel env events text isSsml requestId s
      ≠ Thrown SPXERR_ALREADY_INITIALIZED s'.
Proof.
  split; [| split].
  - rewrite UspInitialize_run. destruct (m_uspConnection s); [reflexivity | eauto].
  - rewrite EnsureUspConnection_run. eauto.
  - intros fuel events text isSsml requestId s'. rewrite Speak_run. cbv zeta.
    destruct (cv_wait _ _ _) as [[] s2 | e s2 | s2] eqn:Hwait; [done | | done].
    now apply cv_wait_not_Thrown in Hwait.
Qed.

(** X10. The messages [Speak] sends before it waits, in order. After a
    connection was made in this call: the configuration message, then the
    synthesis context, then the text. With a connection that is kept: the
    synthesis context, then the text, and no configuration message. When
    the connect step fails: nothing. The text sent is the input in markup
    mode and the markup built from it in plain-text mode. *)
Theorem Speak_send_messages
    (env : Env) (text : string) (isSsml : bool) (requestId : wstring) (s : Adapter) :
  ∃ s' effects,
    Speak_send env text isSsml requestId s = Ok tt s'
    ∧ trace s' = trace s ++ effects
    ∧ sent_messages effects =
        let context :=
          Connection_SendMessage "synthesis.context"
            (synthesisContext_dump (GetOutputFormatString (m_audioOutput s))
               (default "true"
                  (properties s' !! "SpeechServiceResponse_Synthesis_WordBoundaryEnabled"))
               (default "false"
                  (properties s' !! "SpeechServiceResponse_Synthesis_SentenceBoundaryEnabled")))
            USP.MessageType_Context in
        let ssml :=
          Connection_SendMessage "ssml"
            (if isSsml then text
             else BuildSsml text
                    (default "" (properties s !! GetPropertyName
                                   PropertyId.SpeechServiceConnection_SynthLanguage))
                    (default "" (properties s !! GetPropertyName
                                   PropertyId.SpeechServiceConnection_SynthVoice)))
            USP.MessageType_Ssml in
        if reconnects env s then
          match Connect env with
          | Connected _ =>
              [Connection_SendMessage "speech.config" speechConfig_dump
                 USP.MessageType_Config; context; ssml]
          | _ => []
          end
        else [context; ssml].
Proof.
  pose proof (Speak_send_run env text isSsml requestId s) as Hrun.
  unfold request_sent, after_EnsureUspConnection, reconnects in *.
  destruct (m_uspConnection s) as [c0 |] eqn:Hc0.
  - destruct (negb (IsConnected env) || _).
    + unfold after_UspInitialize, established, after_OnError, connect_attempted,
        after_UspTerminate in *.
      rewrite Hc0 in Hrun.
      destruct (Connect env); simpl in Hrun; eexists _, _;
        (split; [exact Hrun |]); simpl; rewrite <- ?app_assoc; simpl;
        (split; [reflexivity |]); destruct isSsml; reflexivity.
    + rewrite Hc0 in Hrun. eexists _, _. split; [exact Hrun |]. simpl.
      split; [reflexivity |]. destruct isSsml; reflexivity.
  - unfold after_UspInitialize, established, after_OnError, connect_attempted in *.
    destruct (Connect env); simpl in Hrun; rewrite ?Hc0 in Hrun; eexists _, _;
      (split; [exact Hrun |]); simpl; rewrite <- ?app_assoc; simpl;
      (split; [reflexivity |]); destruct isSsml; reflexivity.
Qed.

End Requests.

Lemma Speak_without_turn_start_keeps_earlier_audio_witness :
  ∃ r s',
    Speak 0 Demo.env ([AudioOutputChunkMsg ["003"%byte]] ++ TurnEndMsg :: []) "hi" false []
      (set_m_currentReceivedData ["001"%byte; "002"%byte] Demo.adapter) = Ok r s'
    ∧ audio r = ["001"%byte; "002"%byte; "003"%byte].
Proof.
  destruct (Speak 0 Demo.env _ "hi" false []
              (set_m_currentReceivedData ["001"%byte; "002"%byte] Demo.adapter))
    as [r s' | e s' | s'] eqn:Hrun; [| vm_compute in Hrun; discriminate Hrun ..].
  exists r, s'. split; [reflexivity |].
  apply Speak_without_turn_start_keeps_earlier_audio in Hrun as [_ Haudio].
  - exact Haudio.
  - repeat constructor.
Defined.

Section Reuse.
Context `{Externals}.

(** A [Speak] that had to connect and returned holds the connection that
    the connect step gave. *)
Lemma Speak_Ok_connected fuel env events text isSsml requestId s r s1 :
  Speak fuel env events text isSsml requestId s = Ok r s1 →
  reconnects env s = true →
  ∃ c, Connect env = Connected c
       ∧ m_uspConnection s1 = Some c
       ∧ m_lastConnectTime s1 = now_connect env
       ∧ properties s1 !! GetPropertyName PropertyId.SpeechServiceConnection_Url
         = Some (GetConnectionUrl c).
Proof.
  intros Hrun Hre.
  assert (Hconn : m_uspConnection s1 ≠ None).
  { rewrite Speak_run in Hrun. cbv zeta in Hrun.
    destruct (m_uspConnection (request_sent env text isSsml requestId s)) eqn:Hc.
    - destruct (cv_wait _ _ _) as [[] s2 | |] eqn:Hwait; try done.
      injection Hrun as _ <-.
      apply cv_wait_same_connection in Hwait as (Hsame & _). now rewrite Hsame, Hc.
    - simpl in Hrun. now rewrite wait_pred_request_sent in Hrun. }
  apply Speak_Ok in Hrun as [Hwait _].
  apply cv_wait_same_connection in Hwait as (Hc & _ & Ht & Hp & _).
  destruct (same_connection_request_sent env text isSsml requestId s)
    as (Hc' & Ht' & Hp' & _).
  rewrite Hc, Hc' in Hconn. rewrite Hc, Ht, Hp, Hc', Ht', Hp'. clear Hc Ht Hp Hc' Ht' Hp'.
  unfold after_EnsureUspConnection, reconnects in *.
  assert (Hinit : ∀ s0, m_uspConnection s0 = None →
            m_uspConnection (after_UspInitialize env s0) ≠ None →
            ∃ c, Connect env = Connected c
                 ∧ m_uspConnection (after_UspInitialize env s0) = Some c
                 ∧ m_lastConnectTime (after_UspInitialize env s0) = now_connect env
                 ∧ properties (after_UspInitialize env s0)
                     !! GetPropertyName PropertyId.SpeechServiceConnection_Url
                   = Some (GetConnectionUrl c)).
  { intros s0 Hnull. unfold after_UspInitialize.
    destruct (Connect env) as [c | | what |]; simpl; try done.
    intros _. exists c. repeat split. apply lookup_insert_eq. }
  destruct (m_uspConnection s) as [c0 |] eqn:Hc0.
  - rewrite Hre in *. apply Hinit; [apply m_uspConnection_after_UspTerminate | exact Hconn].
  - apply Hinit; [exact Hc0 | exact Hconn].
Qed.

(** X11. After a [Speak] that made a connection and returned, the next
    [EnsureUspConnection] keeps that connection and does nothing at all,
    provided the connection still reports connected and at most nine
    minutes have passed since the connect step of that [Speak]; the events
    handled in between do not touch the connect time. *)
Theorem EnsureUspConnection_keeps_fresh_connection
    (fuel : nat) (env env2 : Env) (events : list Event)
    (text : string) (isSsml : bool) (requestId : wstring)
    (s : Adapter) (r : SynthesisResult) (s1 : Adapter)
    (Hfirst : Speak fuel env events text isSsml requestId s = Ok r s1)
    (Hconnect : reconnects env s = true)
    (Hup : IsConnected env2 = true)
    (Hfresh : GetTicks (now_check env2 - now_connect env)%Z ≤ nine_minutes) :
  EnsureUspConnection env2 s1 = Ok tt s1.
Proof.
  destruct (Speak_Ok_connected _ _ _ _ _ _ _ _ _ Hfirst Hconnect) as (c & _ & Hc & Ht & _).
  rewrite EnsureUspConnection_run. unfold after_EnsureUspConnection.
  rewrite Hc, Hup, Ht. simpl.
  replace reconnect_after_ticks with nine_minutes by (vm_compute; reflexivity).
  destruct (nine_minutes <? _) eqn:Hlt; [apply N.ltb_lt in Hlt; lia | reflexivity].
Qed.

(** X12. After a [Speak] that made a connection and returned, the property
    [SpeechServiceConnection_Url] reads back the URL of the connection now
    held, whatever the property was before and whatever events were
    handled in between. *)
Theorem Speak_publishes_connection_url
    (fuel : nat) (env : Env) (events : list Event)
    (text : string) (isSsml : bool) (requestId : wstring)
    (s : Adapter) (r : SynthesisResult) (s1 : Adapter) (defaultValue : string)
    (Hfirst : Speak fuel env events text isSsml requestId s = Ok r s1)
    (Hconnect : reconnects env s = true) :
  ∃ c, m_uspConnection s1 = Some c
       ∧ GetStringValue (GetPropertyName PropertyId.SpeechServiceConnection_Url)
           defaultValue s1
         = Ok (GetConnectionUrl c) s1.
Proof.
  destruct (Speak_Ok_connected _ _ _ _ _ _ _ _ _ Hfirst Hconnect) as (c & _ & Hc & _ & Hp).
  exists c. split; [exact Hc |]. unfold GetStringValue. run_M. now rewrite Hp.
Qed.

(** X13. An error event whose code is not in the table still ends the call
    with a canceled result, and that result carries the error code
    [NoError]. *)
Theorem Speak_unmapped_error_is_canceled_with_NoError
    (fuel : nat) (env : Env) (pre rest : list Event)
    (transport : bool) (code : USP.ErrorCode) (message : string)
    (text : string) (isSsml : bool) (requestId : wstring)
    (s : Adapter) (r : SynthesisResult) (s' : Adapter)
    (Hpre : Forall in_flight pre)
    (Hcode : uspErrorCodeToCancellationErrorCodeMapping !! code = None)
    (Hrun : Speak fuel env (pre ++ ErrorMsg transport code message :: rest)
              text isSsml requestId s = Ok r s') :
  reason r = Canceled
  ∧ cancellationReason r = CancellationReason_Error
  ∧ errorCode r = CancellationErrorCode.NoError.
Proof.
  apply Speak_Ok in Hrun as [Hwait ->].
  apply cv_wait_in_flight in Hwait as (s1 & _ & Hwait1 & Hend);
    [| exact Hpre | apply wait_pred_request_sent].
  rewrite cv_wait_cons in Hend by exact Hwait1.
  cbv beta iota delta [mbind M_bind dispatch] in Hend. rewrite OnError_run in Hend.
  rewrite cv_wait_woken in Hend by (rewrite wait_pred_state; reflexivity).
  injection Hend as <-.
  unfold synthesis_result. simpl. split; [reflexivity |]. split; [reflexivity |].
  unfold UspErrorCodeToCancellationErrorCode. now rewrite Hcode.
Qed.

End Reuse.

Lemma EnsureUspConnection_keeps_fresh_connection_witness :
  ∃ r s1,
    Speak 0 Demo.env [TurnStartMsg; TurnEndMsg] "hi" false [] Demo.adapter = Ok r s1
    ∧ EnsureUspConnection
        {| IsConnected := true; now_check := 5400001001%Z; Connect := ThrowsOther;
           now_connect := 0%Z |} s1 = Ok tt s1.
Proof.
  destruct (Speak 0 Demo.env [TurnStartMsg; TurnEndMsg] "hi" false [] Demo.adapter)
    as [r s1 | e s1 | s1] eqn:Hrun; [| vm_compute in Hrun; discriminate Hrun ..].
  exists r, s1. split; [reflexivity |].
  apply (EnsureUspConnection_keeps_fresh_connection 0 Demo.env _ _ _ _ _ _ _ _ Hrun).
  - reflexivity.
  - reflexivity.
  - vm_compute. discriminate.
Defined.

Lemma Speak_publishes_connection_url_witness :
  ∃ r s1,
    Speak 0 Demo.env [TurnStartMsg; TurnEndMsg] "hi" false [] Demo.adapter = Ok r s1
    ∧ GetStringValue (GetPropertyName PropertyId.SpeechServiceConnection_Url) "" s1
      = Ok "wss://westus" s1.
Proof.
  destruct (Speak 0 Demo.env [TurnStartMsg; TurnEndMsg] "hi" false [] Demo.adapter)
    as [r s1 | e s1 | s1] eqn:Hrun; [| vm_compute in Hrun; discriminate Hrun ..].
  exists r, s1. split; [reflexivity |].
  destruct (Speak_publishes_connection_url 0 Demo.env _ _ _ _ _ _ _ "" Hrun eq_refl)
    as (c & Hc & Hurl).
  assert (Hheld : m_uspConnection s1 = Some {| GetConnectionUrl := "wss://westus" |})
    by (vm_compute in Hrun; injection Hrun as _ <-; reflexivity).
  rewrite Hheld in Hc. injection Hc as <-. exact Hurl.
Defined.

Lemma Speak_unmapped_error_is_canceled_with_NoError_witness :
  ∃ r s',
    Speak 0 Demo.env ([TurnStartMsg] ++ ErrorMsg false (USP.Unnamed 42) "unknown" :: [])
      "hi" false [] Demo.adapter = Ok r s'
    ∧ reason r = Canceled
    ∧ errorCode r = CancellationErrorCode.NoError.
Proof.
  destruct (Speak 0 Demo.env _ "hi" false [] Demo.adapter)
    as [r s' | e s' | s'] eqn:Hrun; [| vm_compute in Hrun; discriminate Hrun ..].
  exists r, s'. split; [reflexivity |].
  apply Speak_unmapped_error_is_canceled_with_NoError in Hrun as (Hreason & _ & Hcode).
  - split; [exact Hreason | exact Hcode].
  - repeat constructor.
  - vm_compute. reflexivity.
Defined.

(** ** Properties of the initialisation *)

Module Init_properties.
Import Initialisation.

Section Init.
Context `{Helpers}.

Lemma empty_true (str : string) : empty str = true ↔ str = "".
Proof. apply String.eqb_eq. Qed.

Lemma empty_false (str : string) : empty str = false ↔ str ≠ "".
Proof. apply String.eqb_neq. Qed.

(** X14. With a proxy port that reads as a non-negative number, [Init]
    fails exactly when the endpoint and the region are both empty, and
    then with the runtime error on the combination of endpoint, region and
    key. The subscription key has no part in the decision: an empty key
    never makes [Init] fail. *)
Theorem Init_throws_iff_no_endpoint_and_no_region
    (properties : gmap string string) (s : Members) (port : Z)
    (Hport : stoi (default "0" (properties !! SpeechServiceConnection_ProxyPort)) = Some port)
    (Hvalid : (0 ≤ port)%Z) :
  match Init properties s with
  | Throws e _ =>
      e = RuntimeError "Invalid combination of endpoint, region and(or) subscription key."
      ∧ default "" (properties !! SpeechServiceConnection_Endpoint) = ""
      ∧ default "" (properties !! SpeechServiceConnection_Region) = ""
  | Returns _ =>
      default "" (properties !! SpeechServiceConnection_Endpoint) ≠ ""
      ∨ default "" (properties !! SpeechServiceConnection_Region) ≠ ""
  end.
Proof.
  destruct s. unfold Init, GetProxySetting. rewrite Hport. cbn.
  destruct (port <? 0)%Z eqn:Hneg; [apply Z.ltb_lt in Hneg; lia |].
  destruct (empty (default "" (properties !! SpeechServiceConnection_Endpoint))) eqn:He.
  - destruct (empty (default "" (properties !! SpeechServiceConnection_Region))) eqn:Hr;
      simpl.
    + apply empty_true in He, Hr. done.
    + apply empty_false in Hr. now right.
  - apply empty_false in He.
    destruct (IsCustomVoiceEndpoint _), (IsStandardVoiceEndpoint _); simpl; now left.
Qed.

(** The members that [Init] has not reached when the proxy port is
    rejected. *)
Definition not_reached (s s' : Members) : Prop :=
  PlatformInit s' = PlatformInit s
  ∧ m_endpoint s' = m_endpoint s
  ∧ m_authenticator s' = m_authenticator s.

(** X15. [Init] reads the proxy port first. When the port property does not
    read as a number, or reads as a negative one, [Init] throws at that
    point: the platform is not initialised, the endpoint and the
    authenticator are not set, however valid the endpoint and the region
    are. Otherwise the platform is initialised with the proxy settings
    read from the properties, on every path. *)
Theorem Init_checks_proxy_port_first (properties : gmap string string) (s : Members) :
  match stoi (default "0" (properties !! SpeechServiceConnection_ProxyPort)) with
  | None => ∃ s', Init properties s = Throws std_stoi_exception s' ∧ not_reached s s'
  | Some port =>
      if (port <? 0)%Z then
        ∃ s', Init properties s = Throws (InvalidArgumentException port) s'
              ∧ not_reached s s'
      else
        match Init properties s with
        | Returns s' | Throws _ s' =>
            PlatformInit s'
            = Some (default "" (properties !! SpeechServiceConnection_ProxyHostName),
                    port,
                    default "" (properties !! SpeechServiceConnection_ProxyUserName),
                    default "" (properties !! SpeechServiceConnection_ProxyPassword))
        end
  end.
Proof.
  destruct s. unfold Init, GetProxySetting.
  destruct (stoi _) as [port |]; cbn.
  - destruct (port <? 0)%Z.
    + eexists. split; [reflexivity | done].
    + destruct (empty (default "" (properties !! SpeechServiceConnection_Endpoint))),
        (empty (default "" (properties !! SpeechServiceConnection_Region))),
        (IsCustomVoiceEndpoint _), (IsStandardVoiceEndpoint _); reflexivity.
  - eexists. split; [reflexivity | done].
Qed.

(** X16. When [Init] returns, a configured endpoint is used as it is and
    the region property is not used: the token URL is built from the
    region parsed out of the endpoint, for a custom-voice or a
    standard-voice endpoint, and no authenticator is created for any other
    endpoint. Without an endpoint, the endpoint and the token URL are both
    built from the region property. The authenticator gets the
    subscription key and the proxy settings. *)
Theorem Init_endpoint_and_authenticator
    (properties : gmap string string) (s s' : Members)
    (Hrun : Init properties s = Returns s') :
  let endpoint := default "" (properties !! SpeechServiceConnection_Endpoint) in
  let region := default "" (properties !! SpeechServiceConnection_Region) in
  let key := default "" (properties !! SpeechServiceConnection_Key) in
  if empty endpoint then
    region ≠ ""
    ∧ m_endpoint s'
      = ((WSS_URL_PREFIX +:+ region) +:+ TTS_COGNITIVE_SERVICE_HOST_SUFFIX)
          +:+ TTS_COGNITIVE_SERVICE_WSS_URL_PATH
    ∧ m_authenticator s' = Some (make_authenticator region key s')
  else
    m_endpoint s' = endpoint
    ∧ m_authenticator s'
      = if IsCustomVoiceEndpoint endpoint || IsStandardVoiceEndpoint endpoint
        then Some (make_authenticator
                     (ParseRegionFromCognitiveServiceEndpoint endpoint) key s')
        else m_authenticator s.
Proof.
  revert Hrun. destruct s. unfold Init, GetProxySetting.
  destruct (stoi _) as [port |]; [| done]. cbn.
  destruct (port <? 0)%Z; [done |].
  destruct (empty (default "" (properties !! SpeechServiceConnection_Endpoint))) eqn:He.
  - destruct (empty (default "" (properties !! SpeechServiceConnection_Region))) eqn:Hr;
      simpl; [done |].
    intros [= <-]. apply empty_false in Hr. done.
  - destruct (IsCustomVoiceEndpoint _), (IsStandardVoiceEndpoint _); simpl;
      intros [= <-]; done.
Qed.

End Init.

End Init_properties.

Lemma Init_throws_iff_no_endpoint_and_no_region_witness :
  ∃ s', Initialisation.Init
          ({[ "ProxyPort" := "8080"; "Key" := "secret" ]} : gmap string string)
          Demo_Init.constructed
        = Initialisation.Throws
            (Initialisation.RuntimeError
               "Invalid combination of endpoint, region and(or) subscription key.") s'.
Proof.
  pose (properties := ({[ "ProxyPort" := "8080"; "Key" := "secret" ]} : gmap string string)).
  assert (Hport : Initialisation.stoi
                    (default "0"
                       (properties !! Initialisation.SpeechServiceConnection_ProxyPort))
                  = Some 8080%Z) by (vm_compute; reflexivity).
  assert (Hvalid : (0 ≤ 8080)%Z) by lia.
  pose proof (Init_properties.Init_throws_iff_no_endpoint_and_no_region
                properties Demo_Init.constructed 8080 Hport Hvalid) as Hinit.
  fold properties.
  destruct (Initialisation.Init properties Demo_Init.constructed) as [s' | e s'] eqn:Hrun.
  - vm_compute in Hrun. discriminate Hrun.
  - destruct Hinit as (-> & _). exists s'. reflexivity.
Defined.

Lemma Init_endpoint_and_authenticator_witness :
  ∃ s', Initialisation.Init
          ({[ "Endpoint" := "wss://standard.voice/v1"; "Region" := "westus";
              "Key" := "secret" ]} : gmap string string) Demo_Init.constructed
        = Initialisation.Returns s'
        ∧ Initialisation.m_endpoint s' = "wss://standard.voice/v1"
        ∧ Initialisation.issueTokenUrl <$> Initialisation.m_authenticator s'
          = Some "https://parsed.api.cognitive.microsoft.com/sts/v1.0/issueToken".
Proof.
  destruct (Initialisation.Init _ Demo_Init.constructed) as [s' | e s'] eqn:Hrun;
    [| vm_compute in Hrun; discriminate Hrun].
  exists s'. split; [reflexivity |].
  pose proof (Init_properties.Init_endpoint_and_authenticator _ _ _ Hrun) as Hinit.
  vm_compute in Hrun. injection Hrun as <-.
  vm_compute in Hinit. destruct Hinit as (Hendpoint & Hauth).
  split; [exact Hendpoint | reflexivity].
Defined.

(** ** When the calls return *)

(** X17. A word-boundary step fails to return exactly in markup mode when
    the first occurrence of the reported word at or after the cursor is
    classified as inside a tag; this does not depend on the number of
    iterations allowed, and the adapter is left as it was. In plain-text
    mode the step always returns. *)
Theorem OnWordBoundary_hangs_iff (fuel : nat) (wb : TextBoundary) (s : Adapter) :
  ((∃ s', OnWordBoundary fuel wb s = Hangs s') ↔
   m_currentTextIsSsml s = true
   ∧ ∃ textOffset,
       find (m_currentText s) (c_str (text wb)) (N.to_nat (m_currentTextOffset s))
       = Some textOffset
       ∧ InSsmlTag textOffset (m_currentText s) (N.to_nat (m_currentTextOffset s)) = true)
  ∧ (∀ s', OnWordBoundary fuel wb s = Hangs s' → s' = s)
  ∧ (m_currentTextIsSsml s = false → ∃ s', OnWordBoundary fuel wb s = Ok tt s').
Proof.
  rewrite OnWordBoundary_run.
  destruct (find _ _ _) as [textOffset |].
  - destruct (m_currentTextIsSsml s); simpl.
    + destruct (InSsmlTag _ _ _) eqn:Htag.
      * split; [| split; [intros s' [= <-]; reflexivity | done]].
        split; [intros _ | eauto]. split; [reflexivity |]. exists textOffset. done.
      * split; [| split; [done | done]].
        split; [intros [s' Hrun]; done |]. intros (_ & off & [= <-] & Htag').
        rewrite Htag in Htag'. done.
    + split; [| split; [done | eauto]].
      split; [intros [s' Hrun]; done | intros [Hssml _]; done].
  - split; [| split; [done | eauto]].
    split; [intros [s' Hrun]; done | intros (_ & off & Hfind & _); done].
Qed.

Section Returns.
Context `{Externals}.

(** X18. In plain-text mode [Speak] returns exactly when
    [EnsureUspConnection] leaves the adapter with a connection and a
    turn-end or an error is among the events delivered; otherwise the
    caller stays blocked. *)
Theorem Speak_plain_returns_iff
    (fuel : nat) (env : Env) (events : list Event)
    (text : string) (requestId : wstring) (s : Adapter) :
  (∃ r s', Speak fuel env events text false requestId s = Ok r s') ↔
  (∃ s1 c, EnsureUspConnection env s = Ok tt s1 ∧ m_uspConnection s1 = Some c)
  ∧ Exists (λ ev, in_flight ev = false) events.
Proof.
  rewrite EnsureUspConnection_run. split.
  - intros (r & s' & Hrun).
    assert (Hconn : m_uspConnection (after_EnsureUspConnection env s) ≠ None).
    { rewrite Speak_run in Hrun. cbv zeta in Hrun.
      rewrite m_uspConnection_request_sent in Hrun.
      destruct (m_uspConnection (after_EnsureUspConnection env s)); [done |].
      simpl in Hrun. now rewrite wait_pred_request_sent in Hrun. }
    apply Speak_Ok in Hrun as [Hwait _].
    apply cv_wait_Ok in Hwait as (pre & ev & rest & s1 & -> & _ & Hev & _);
      [| apply wait_pred_request_sent].
    split.
    + destruct (m_uspConnection (after_EnsureUspConnection env s)) as [c |] eqn:Hc;
        [| done].
      exists (after_EnsureUspConnection env s), c. done.
    + apply Exists_app. right. now apply Exists_cons_hd.
  - intros [(s1 & c & [= <-] & Hc) Hev].
    apply Exists_exists in Hev as (last & Hin & Hlast).
    apply list_elem_of_split in Hin as (pre & rest & ->).
    apply Speak_plain_returns; [now rewrite Hc | exact Hlast].
Qed.

(** X19. Tearing down twice is harmless: the second [UspTerminate] finds
    neither callbacks nor connection, releases no connection, and leaves
    every member as the first one left it; only the call that clears the
    callback pointer is repeated. The callbacks are always released before
    the connection. *)
Theorem UspTerminate_twice (s : Adapter) :
  ∃ s1 s2,
    UspTerminate s = Ok tt s1
    ∧ UspTerminate s1 = Ok tt s2
    ∧ m_uspConnection s1 = None ∧ m_uspCallbacks s1 = None
    ∧ trace s1 = trace s ++ SpxTermAndClear_uspCallbacks
                   :: match m_uspConnection s with
                      | Some _ => [Connection_reset]
                      | None => []
                      end
    ∧ s2 = set_trace (trace s1 ++ [SpxTermAndClear_uspCallbacks]) s1.
Proof.
  exists (after_UspTerminate s), (after_UspTerminate (after_UspTerminate s)).
  rewrite !UspTerminate_run.
  split; [reflexivity |]. split; [reflexivity |].
  split; [apply m_uspConnection_after_UspTerminate |].
  destruct s as [? ? ? ? ? ? ? ? ? ? ? ? ? ? ? ? ? ? ? ? ?].
  unfold after_UspTerminate. cbv_state.
  match goal with |- context [match ?c with Some _ => _ | None => _ end] =>
    destruct c end; cbv_state; rewrite <- ?app_assoc; done.
Qed.

End Returns.
